(** * Leap-year candidates and the timing harness of the two benchmark scripts

    The development embeds [Leap_Benchmark_II.py] and [Leap_benchmarking.py]:
    the four leap-year candidates, the part of the Python library they call
    ([datetime], [timedelta], [calendar.isleap], [timeit], [min], [round],
    the [.loc] setter of a data frame), the result table [df] and the two
    timing loops.

    Python integers are unbounded, so a year is a [Z]; [%] with a positive
    divisor is the floor remainder, which is [Z.modulo]. *)

From Stdlib Require Import ZArith NArith QArith Qround.
From Stdlib Require Import List String Bool Lia Lqa.
Import ListNotations.

Local Open Scope Z_scope.

(** ** Exceptions and outcomes *)

Module Py.

(** The exception classes the modelled code can raise. *)
Inductive exn : Type :=
| ValueError
| OverflowError
| KeyError.

(** What a Python call produces: a value, or a raised exception. *)
Inductive outcome (A : Type) : Type :=
| Ok (a : A)
| Raise (e : exn).

Arguments Ok {A} a.
Arguments Raise {A} e.

Definition is_ok {A} (o : outcome A) : bool :=
  match o with Ok _ => true | Raise _ => false end.

Definition obind {A B} (o : outcome A) (k : A -> outcome B) : outcome B :=
  match o with
  | Ok a => k a
  | Raise e => Raise e
  end.

Definition exn_eqb (a b : exn) : bool :=
  match a, b with
  | ValueError, ValueError => true
  | OverflowError, OverflowError => true
  | KeyError, KeyError => true
  | _, _ => false
  end.

End Py.

Export Py.

(** ** The library's calendar arithmetic

    [datetime(year, 2, 28) + timedelta(days=1)] goes through the proleptic
    Gregorian ordinal: the constructor validates its fields, addition
    converts the date to its ordinal, adds the day count and converts back.
    The definitions follow the standard library's [datetime] module
    ([_is_leap], [_days_before_year], [_days_in_month],
    [_days_before_month], [_ymd2ord], [_ord2ymd], [_check_date_fields],
    [datetime.__add__]).  The time-of-day fields are zero in every call the
    scripts make and are left out. *)

Module Datetime.

Definition MINYEAR : Z := 1.
Definition MAXYEAR : Z := 9999.
Definition _MAXORDINAL : Z := 3652059.

(** The interpreter's [datetime] type is implemented in C and its
    constructor receives year, month and day as C [int]s: an integer that
    does not fit is refused with [OverflowError] before any field is looked
    at. *)
Definition INT_MIN : Z := - 2 ^ 31.
Definition INT_MAX : Z := 2 ^ 31 - 1.

Definition fits_c_int (n : Z) : bool := (INT_MIN <=? n) && (n <=? INT_MAX).

Definition as_c_int (n : Z) : outcome Z :=
  if fits_c_int n then Ok n else Raise OverflowError.

Definition _DAYS_IN_MONTH : list Z :=
  [-1; 31; 28; 31; 30; 31; 30; 31; 31; 30; 31; 30; 31].

Definition _DAYS_BEFORE_MONTH : list Z :=
  [-1; 0; 31; 59; 90; 120; 151; 181; 212; 243; 273; 304; 334].

(** List indexing by a month number; every month the code below indexes
    with lies in 1..12. *)
Definition item (l : list Z) (i : Z) : Z := nth (Z.to_nat i) l (-1).

Definition b2z (b : bool) : Z := if b then 1 else 0.

Definition _is_leap (year : Z) : bool :=
  (year mod 4 =? 0) && (negb (year mod 100 =? 0) || (year mod 400 =? 0)).

Definition _days_before_year (year : Z) : Z :=
  let y := year - 1 in
  y * 365 + y / 4 - y / 100 + y / 400.

Definition _days_in_month (year month : Z) : Z :=
  if (month =? 2) && _is_leap year then 29 else item _DAYS_IN_MONTH month.

Definition _days_before_month (year month : Z) : Z :=
  item _DAYS_BEFORE_MONTH month + b2z ((2 <? month) && _is_leap year).

Definition _ymd2ord (year month day : Z) : Z :=
  _days_before_year year + _days_before_month year month + day.

Definition _DI400Y : Z := Eval cbv in _days_before_year 401.
Definition _DI100Y : Z := Eval cbv in _days_before_year 101.
Definition _DI4Y : Z := Eval cbv in _days_before_year 5.

Definition _ord2ymd (n : Z) : Z * Z * Z :=
  let n := n - 1 in
  let n400 := n / _DI400Y in
  let n := n mod _DI400Y in
  let year := n400 * 400 + 1 in
  let n100 := n / _DI100Y in
  let n := n mod _DI100Y in
  let n4 := n / _DI4Y in
  let n := n mod _DI4Y in
  let n1 := n / 365 in
  let n := n mod 365 in
  let year := year + (n100 * 100 + n4 * 4 + n1) in
  if (n1 =? 4) || (n100 =? 4) then (year - 1, 12, 31)
  else
    let leapyear := (n1 =? 3) && (negb (n4 =? 24) || (n100 =? 3)) in
    let month := Z.shiftr (n + 50) 5 in
    let preceding :=
      item _DAYS_BEFORE_MONTH month + b2z ((2 <? month) && leapyear) in
    if n <? preceding then
      let month := month - 1 in
      let preceding :=
        preceding
        - (item _DAYS_IN_MONTH month + b2z ((month =? 2) && leapyear)) in
      (year, month, n - preceding + 1)
    else (year, month, n - preceding + 1).

Record datetime : Type := mk_datetime {
  year : Z;
  month : Z;
  day : Z
}.

Definition _check_date_fields (year month day : Z) : outcome datetime :=
  if negb ((MINYEAR <=? year) && (year <=? MAXYEAR)) then Raise ValueError
  else if negb ((1 <=? month) && (month <=? 12)) then Raise ValueError
  else
    let dim := _days_in_month year month in
    if negb ((1 <=? day) && (day <=? dim)) then Raise ValueError
    else Ok (mk_datetime year month day).

(** [datetime(year, month, day)]. *)
Definition new (year month day : Z) : outcome datetime :=
  obind (as_c_int year) (fun year =>
  obind (as_c_int month) (fun month =>
  obind (as_c_int day) (fun day =>
  _check_date_fields year month day))).

Definition toordinal (d : datetime) : Z :=
  _ymd2ord (year d) (month d) (day d).

Definition fromordinal (n : Z) : datetime :=
  let '(y, m, d) := _ord2ymd n in mk_datetime y m d.

(** [self + timedelta(days=days)]. *)
Definition add_days (self : datetime) (days : Z) : outcome datetime :=
  let delta_days := toordinal self + days in
  if (0 <? delta_days) && (delta_days <=? _MAXORDINAL)
  then Ok (fromordinal delta_days)
  else Raise OverflowError.

End Datetime.

(** [calendar.isleap]. *)
Module Calendar.

Definition isleap (year : Z) : bool :=
  (year mod 4 =? 0) && (negb (year mod 100 =? 0) || (year mod 400 =? 0)).

End Calendar.

(** ** The result table

    Durations are IEEE doubles in the source.  The model takes them as exact
    rationals, in seconds: it follows which readings of the clock are
    subtracted, divided, compared and rounded, not the rounding error of
    each float operation. *)

Module Pandas.

(** A cell of the frame: the [np.nan] it was created with, or a number. *)
Inductive cell : Type :=
| NaN
| Num (v : Q).

Record DataFrame : Type := mk_df {
  index : list string;
  columns : list string;
  values : list (list cell)
}.

(** [pd.DataFrame(np.nan, index=index, columns=columns)]. *)
Definition DataFrame_nan (index columns : list string) : DataFrame :=
  mk_df index columns (map (fun _ => map (fun _ => NaN) columns) index).

(** The position of a label; the labels of both scripts are distinct. *)
Fixpoint get_loc (label : string) (labels : list string) : option nat :=
  match labels with
  | [] => None
  | l :: rest =>
      if String.eqb label l then Some O
      else option_map S (get_loc label rest)
  end.

Fixpoint set_nth {A} (n : nat) (x : A) (l : list A) : list A :=
  match l, n with
  | [], _ => []
  | _ :: t, O => x :: t
  | h :: t, S k => h :: set_nth k x t
  end.

Definition iat_set (i j : nat) (v : cell) (rows : list (list cell))
  : list (list cell) :=
  match nth_error rows i with
  | Some row => set_nth i (set_nth j v row) rows
  | None => rows
  end.

(** Setting with enlargement: [.loc] appends a row or a column of [np.nan]
    for a label the frame does not have yet. *)
Definition with_row (d : DataFrame) (r : string) : DataFrame * nat :=
  match get_loc r (index d) with
  | Some i => (d, i)
  | None =>
      (mk_df (index d ++ [r]) (columns d)
             (values d ++ [map (fun _ => NaN) (columns d)]),
       List.length (index d))
  end.

Definition with_column (d : DataFrame) (c : string) : DataFrame * nat :=
  match get_loc c (columns d) with
  | Some j => (d, j)
  | None =>
      (mk_df (index d) (columns d ++ [c])
             (map (fun row => row ++ [NaN]) (values d)),
       List.length (columns d))
  end.

(** [df.loc[r, c] = v] for two labels and a number. *)
Definition loc_set (d : DataFrame) (r c : string) (v : Q) : DataFrame :=
  let '(d, i) := with_row d r in
  let '(d, j) := with_column d c in
  mk_df (index d) (columns d) (iat_set i j (Num v) (values d)).

(** The positions a label slice [lo:hi] selects, both ends included.  Both
    scripts slice with labels the frame has. *)
Definition slice_locs (labels : list string) (lo hi : string)
  : outcome (list nat) :=
  match get_loc lo labels, get_loc hi labels with
  | Some a, Some b => Ok (seq a (S b - a))
  | _, _ => Raise KeyError
  end.

Fixpoint assign_row (i : nat) (js : list nat) (vs : list Q)
    (rows : list (list cell)) : list (list cell) :=
  match js, vs with
  | j :: js', v :: vs' => assign_row i js' vs' (iat_set i j (Num v) rows)
  | _, _ => rows
  end.

(** [df.loc[r, lo:hi] = vals] for a row label, a label slice of the columns
    and a list: element by element when the lengths agree, a one-element
    list is broadcast, any other length is refused.  The result carries the
    column labels and values that were stored. *)
Definition loc_set_slice (d : DataFrame) (r lo hi : string) (vals : list Q)
  : outcome (DataFrame * list (string * Q)) :=
  obind (slice_locs (columns d) lo hi) (fun js =>
  let '(d, i) := with_row d r in
  let vs :=
    match vals with
    | [v] => Ok (map (fun _ => v) js)
    | _ => if Nat.eqb (List.length vals) (List.length js) then Ok vals
           else Raise ValueError
    end in
  obind vs (fun vs =>
  Ok (mk_df (index d) (columns d) (assign_row i js vs (values d)),
      combine (map (fun j => nth j (columns d) EmptyString) js) vs))).

(** Reading the cell at a pair of labels. *)
Definition at_ (d : DataFrame) (r c : string) : option cell :=
  match get_loc r (index d), get_loc c (columns d) with
  | Some i, Some j =>
      match nth_error (values d) i with
      | Some row => nth_error row j
      | None => None
      end
  | _, _ => None
  end.

Definition shape (d : DataFrame) : nat * nat :=
  (List.length (index d), List.length (columns d)).

End Pandas.

Export Pandas.

(** ** Built-ins on numbers *)

Module Builtins.

Local Open Scope Q_scope.

Definition Qltb (x y : Q) : bool := negb (Qle_bool y x).

(** The running minimum of [min]: a later element replaces the current one
    only when it is strictly smaller. *)
Definition least (x : Q) (rest : list Q) : Q :=
  fold_left (fun m y => if Qltb y m then y else m) rest x.

(** [min(l)] on a list; an empty argument raises [ValueError]. *)
Definition min (l : list Q) : outcome Q :=
  match l with
  | [] => Raise ValueError
  | x :: rest => Ok (least x rest)
  end.

(** Rounding to the nearest integer, ties to even. *)
Definition round_half_even (x : Q) : Z :=
  let f := Qfloor x in
  match Qcompare (x - inject_Z f) (1 # 2) with
  | Lt => f
  | Gt => (f + 1)%Z
  | Eq => if Z.even f then f else (f + 1)%Z
  end.

(** [round(x, ndigits)] for [ndigits >= 0]: the nearest multiple of
    [10 ** -ndigits], ties to even.  This is the number Python's [round]
    aims at; the float it returns is the double nearest to it. *)
Definition round (x : Q) (ndigits : N) : Q :=
  let scale := inject_Z (10 ^ Z.of_N ndigits) in
  inject_Z (round_half_even (x * scale)) / scale.

End Builtins.

(** ** State and exceptions

    A run threads a world: how many candidate calls have completed so far,
    the module-level frame [df], and the chronological trace of what the
    script did to the console, to files and to the table. *)

Module Run.

Inductive line : Type :=
| CellLine (descriptor year : string) (val : Q)
| RowLine (title : string) (val : list Q)
| TextLine (s : string)
| MarkdownLine (d : DataFrame).

Inductive event : Type :=
| Console (l : line)
| Assign (r c : string) (v : Q)
| SaveFig (path : string).

Record World : Type := mk_world {
  ncalls : N;
  df : DataFrame;
  trace : list event
}.

Definition M (A : Type) : Type := World -> outcome A * World.

Definition ret {A} (a : A) : M A := fun w => (Ok a, w).

Definition bind {A B} (m : M A) (k : A -> M B) : M B :=
  fun w =>
    match m w with
    | (Ok a, w') => k a w'
    | (Raise e, w') => (Raise e, w')
    end.

Definition lift {A} (o : outcome A) : M A := fun w => (o, w).

Declare Scope run_scope.
Delimit Scope run_scope with run.
Notation "x <- m ;; k" := (bind m (fun x => k))
  (at level 61, m at next level, right associativity) : run_scope.
Notation "m ;; k" := (bind m (fun _ => k))
  (at level 61, right associativity) : run_scope.
Local Open Scope run_scope.

(** A [for] loop over a list, and a list comprehension. *)
Fixpoint for_each {A} (body : A -> M unit) (l : list A) : M unit :=
  match l with
  | [] => ret tt
  | x :: rest => body x ;; for_each body rest
  end.

Fixpoint comprehension {A B} (f : A -> M B) (l : list A) : M (list B) :=
  match l with
  | [] => ret []
  | x :: rest => y <- f x ;; ys <- comprehension f rest ;; ret (y :: ys)
  end.

Definition emit (e : event) : M unit :=
  fun w => (Ok tt, mk_world (ncalls w) (df w) (trace w ++ [e])).

(** [print(...)]: the line is kept as the fields that are interpolated,
    not as rendered text. *)
Definition print (l : line) : M unit := emit (Console l).

Definition savefig (path : string) : M unit := emit (SaveFig path).

Definition get_df : M DataFrame := fun w => (Ok (df w), w).

Definition put_df (d : DataFrame) : M unit :=
  fun w => (Ok tt, mk_world (ncalls w) d (trace w)).

(** [df.loc[r, c] = v]. *)
Definition df_loc_set (r c : string) (v : Q) : M unit :=
  d <- get_df ;;
  put_df (loc_set d r c v) ;;
  emit (Assign r c v).

(** [df.loc[r, lo:hi] = vals]. *)
Definition df_loc_set_slice (r lo hi : string) (vals : list Q) : M unit :=
  d <- get_df ;;
  res <- lift (loc_set_slice d r lo hi vals) ;;
  put_df (fst res) ;;
  for_each (fun cv => emit (Assign r (fst cv) (snd cv))) (snd res).

(** Calling a candidate: one more call has completed when it returns or
    raises. *)
Definition call (f : Z -> outcome bool) (x : Z) : M bool :=
  fun w => (f x, mk_world (ncalls w + 1) (df w) (trace w)).

(** The files written, the console lines and the cells stored so far. *)
Definition files (w : World) : list string :=
  flat_map (fun e => match e with SaveFig p => [p] | _ => [] end) (trace w).


Definition assigned (w : World) : list (string * string) :=
  flat_map (fun e => match e with Assign r c _ => [(r, c)] | _ => [] end)
           (trace w).

End Run.

Export Run.
Local Open Scope run_scope.

(** ** [timeit]

    The clock is an oracle: [clock n] is what [time.perf_counter()] reads
    once [n] candidate calls have completed, so the call that starts then
    lasts [clock (n + 1) - clock n]; the time the loop itself takes is
    counted with the calls.  Nothing is assumed of the oracle.  [timeit]
    reads the clock before and after its loop and returns the
    difference. *)

Module Timeit.

(** The defaults of [timeit.timeit] and [timeit.repeat]: a million calls in
    a batch, five batches. *)
Definition default_number : N := 1000000.
Definition default_repeat : nat := 5.

Section WithClock.

Variable clock : N -> Q.

Definition timer : M Q := fun w => (Ok (clock (ncalls w)), w).

(** [for _i in itertools.repeat(None, number): stmt]. *)
Definition for_range (number : N) (stmt : M unit) : M unit :=
  N.iter number (fun done => done ;; stmt) (ret tt).

(** [Timer(stmt).timeit(number)]. *)
Definition timeit (stmt : M unit) (number : N) : M Q :=
  t0 <- timer ;;
  for_range number stmt ;;
  t1 <- timer ;;
  ret (t1 - t0)%Q.

(** [Timer(stmt).repeat(repeat, number)]. *)
Fixpoint repeat (stmt : M unit) (repeat_ : nat) (number : N) : M (list Q) :=
  match repeat_ with
  | O => ret []
  | S k =>
      t <- timeit stmt number ;;
      r <- repeat stmt k number ;;
      ret (t :: r)
  end.

End WithClock.

End Timeit.

(** ** The two scripts *)

(** A candidate as the harness sees it: called on a year, it returns a
    boolean or raises. *)
Definition candidate : Type := Z -> outcome bool.

Definition pure (f : Z -> bool) : candidate := fun year => Ok (f year).

(** The part of both scripts after the timing loop: the chart is written to
    a file and the table is printed.  Building and styling the chart
    touches nothing of the world and is left out. *)
Definition presentation : M unit :=
  savefig "../leap_timeit_bar_plot-dark.svg" ;;
  print (TextLine "Dataframe in Markdown format:") ;;
  d <- get_df ;;
  print (MarkdownLine d).

(** The world a script starts in: no call made, no [df] yet, nothing
    done. *)
Definition initial_world : World :=
  mk_world 0 (mk_df [] [] []) [].

Module Leap_Benchmark_II.

Definition row_headers : list string :=
  ["if-statements"; "ternary"; "datetime-add"; "calendar-isleap"]%string.

Definition col_headers : list string :=
  ["1900"; "2000"; "2019"; "2020"]%string.

Definition leap_if_statements (year : Z) : bool :=
  (year mod 4 =? 0) && (negb (year mod 100 =? 0) || (year mod 400 =? 0)).

Definition leap_ternary (year : Z) : bool :=
  if year mod 100 =? 0 then year mod 400 =? 0 else year mod 4 =? 0.

Definition leap_datetime (year : Z) : outcome bool :=
  obind (Datetime.new year 2 28) (fun d =>
  obind (Datetime.add_days d 1) (fun d' =>
  Ok (Datetime.day d' =? 29))).

Definition leap_calendar (year : Z) : bool := Calendar.isleap year.

Definition functions : list candidate :=
  [pure leap_if_statements; pure leap_ternary; leap_datetime;
   pure leap_calendar].

Definition input_data : list Z := [1900; 2000; 2019; 2020].

Section Script.

Variable clock : N -> Q.

(** [round(min(timeit.repeat(lambda: func(data))), 3)]. *)
Definition measure (func : candidate) (data : Z) : M Q :=
  ts <- Timeit.repeat clock (call func data ;; ret tt)
          Timeit.default_repeat Timeit.default_number ;;
  m <- lift (Builtins.min ts) ;;
  ret (Builtins.round m 3).

(** The body of the loop over [zip(functions, row_headers)]. *)
Definition row (ft : candidate * string) : M unit :=
  let '(func, title) := ft in
  val <- comprehension (measure func) input_data ;;
  print (RowLine title val) ;;
  df_loc_set_slice title "1900" "2020" val.

(** The timing loop, for any list of candidates in place of
    [functions]. *)
Definition timings (functions : list candidate) : M unit :=
  for_each row (combine functions row_headers).

(** The script up to the end of the timing loop, and as a whole. *)
Definition harness (functions : list candidate) : M unit :=
  put_df (DataFrame_nan row_headers col_headers) ;;
  timings functions.

Definition script (functions : list candidate) : M unit :=
  harness functions ;;
  presentation.

Definition main : M unit := script functions.

End Script.

End Leap_Benchmark_II.

Module Leap_benchmarking.

Definition loops : N := 1000000.

Definition row_headers : list string :=
  ["if-statements"; "ternary"; "datetime-add"; "calendar-isleap"]%string.

Definition col_headers : list string :=
  ["1900"; "2000"; "2019"; "2020"]%string.

(** The [leap_year] each setup string defines. *)
Module if_statements.
Definition leap_year (year : Z) : bool :=
  (year mod 4 =? 0) && (negb (year mod 100 =? 0) || (year mod 400 =? 0)).
End if_statements.

Module ternary.
Definition leap_year (year : Z) : bool :=
  if year mod 100 =? 0 then year mod 400 =? 0 else year mod 4 =? 0.
End ternary.

Module datetime_add.
Definition leap_year (year : Z) : outcome bool :=
  obind (Datetime.new year 2 28) (fun d =>
  obind (Datetime.add_days d 1) (fun d' =>
  Ok (Datetime.day d' =? 29))).
End datetime_add.

Module calendar_isleap.
Definition leap_year (year : Z) : bool := Calendar.isleap year.
End calendar_isleap.

(** The dictionary [setups]: a setup is represented by the [leap_year] it
    leaves in the timed namespace. *)
Definition setups : list (string * candidate) :=
  [("if-statements"%string, pure if_statements.leap_year);
   ("ternary"%string, pure ternary.leap_year);
   ("datetime-add"%string, datetime_add.leap_year);
   ("calendar-isleap"%string, pure calendar_isleap.leap_year)].

(** [d[key]]. *)
Fixpoint getitem (d : list (string * candidate)) (key : string)
  : outcome candidate :=
  match d with
  | [] => Raise KeyError
  | (k, v) :: rest => if String.eqb key k then Ok v else getitem rest key
  end.

Section Script.

Variable clock : N -> Q.
Variable setups : list (string * candidate).

(** One of the four blocks of the loop body:
    [val = timeit.timeit("leap_year(Y)", setups[descriptor],
    number=loops) / loops], the [print] and the store. *)
Definition block (descriptor : string) (y : Z) (year : string) : M unit :=
  leap_year <- lift (getitem setups descriptor) ;;
  t <- Timeit.timeit clock (call leap_year y ;; ret tt) loops ;;
  let val := (t / inject_Z (Z.of_N loops))%Q in
  print (CellLine descriptor year val) ;;
  df_loc_set descriptor year val.

Definition body (descriptor : string) : M unit :=
  block descriptor 1900 "1900" ;;
  block descriptor 2000 "2000" ;;
  block descriptor 2019 "2019" ;;
  block descriptor 2020 "2020".

Definition timings : M unit := for_each body row_headers.

(** The script up to the end of the timing loop, and as a whole. *)
Definition harness : M unit :=
  put_df (DataFrame_nan row_headers col_headers) ;;
  timings.

Definition script : M unit :=
  harness ;;
  presentation.

End Script.

Definition main (clock : N -> Q) : M unit := script clock setups.

End Leap_benchmarking.

(** ** Vocabulary of the statements *)

(** The years of the four timed statements of [Leap_benchmarking.py], in
    the order of the loop body. *)
Definition years : list Z := [1900; 2000; 2019; 2020].

(** The Gregorian rule in the words of the glossary: divisible by 4, except
    centuries (years divisible by 100) not divisible by 400. *)
Definition gregorian_leap (year : Z) : Prop :=
  (4 | year) /\ ~ ((100 | year) /\ ~ (400 | year)).

(** All the candidates of a list return one and the same boolean. *)
Definition same_answer (fs : list candidate) (year : Z) : Prop :=
  exists b : bool, Forall (fun f => f year = Ok b) fs.

(** A check of [count] consecutive years, to decide a property of a range
    of years by evaluation. *)
Fixpoint check_years (p : Z -> bool) (from : Z) (count : nat) : bool :=
  match count with
  | O => true
  | S k => p from && check_years p (from + 1) k
  end.

Definition outcome_bool_eqb (a b : outcome bool) : bool :=
  match a, b with
  | Ok x, Ok y => Bool.eqb x y
  | Raise e, Raise e' => exn_eqb e e'
  | _, _ => false
  end.

(** A candidate that raises whatever the year, and [functions] with its
    second entry replaced by it. *)
Definition broken : candidate := fun _ => Raise ValueError.

Definition functions_with_broken : list candidate :=
  [pure Leap_Benchmark_II.leap_if_statements; broken;
   Leap_Benchmark_II.leap_datetime; pure Leap_Benchmark_II.leap_calendar].

Definition setups_with_broken : list (string * candidate) :=
  [("if-statements"%string, pure Leap_benchmarking.if_statements.leap_year);
   ("ternary"%string, broken);
   ("datetime-add"%string, Leap_benchmarking.datetime_add.leap_year);
   ("calendar-isleap"%string,
    pure Leap_benchmarking.calendar_isleap.leap_year)].

(** *** Closed forms of what a run computes *)

(** [n] more calls have completed. *)
Definition bump (n : N) (w : World) : World :=
  mk_world (ncalls w + n) (df w) (trace w).

(** The totals [Timer.repeat] collects when no call raises: one per batch
    of [number] calls, the first batch starting after [start] calls. *)
Fixpoint batch_totals (clock : N -> Q) (start : N) (repeat_ : nat)
    (number : N) : list Q :=
  match repeat_ with
  | O => []
  | S k =>
      (clock (start + number)%N - clock start)%Q
      :: batch_totals clock (start + number)%N k number
  end.

(** The calls one cell of [Leap_Benchmark_II.py] costs. *)
Definition per_cell : N :=
  (N.of_nat Timeit.default_repeat * Timeit.default_number)%N.

(** The value [Leap_Benchmark_II.py] computes for the cell whose
    measurement starts after [start] calls. *)
Definition II_value (clock : N -> Q) (start : N) : Q :=
  match
    batch_totals clock start Timeit.default_repeat Timeit.default_number
  with
  | [] => 0%Q
  | t :: ts => Builtins.round (Builtins.least t ts) 3
  end.

Fixpoint row_values (clock : N -> Q) (start : N) (l : list Z) : list Q :=
  match l with
  | [] => []
  | _ :: rest =>
      II_value clock start :: row_values clock (start + per_cell)%N rest
  end.

(** The value [Leap_benchmarking.py] computes for the cell whose
    measurement starts after [start] calls. *)
Definition I_value (clock : N -> Q) (start : N) : Q :=
  ((clock (start + Leap_benchmarking.loops)%N - clock start)
   / inject_Z (Z.of_N Leap_benchmarking.loops))%Q.

(** The first input, in order, on which a candidate raises, and the first
    (candidate, input) pair, in the order of the loops, that raises. *)
Fixpoint first_raise (f : candidate) (l : list Z) : option (nat * exn) :=
  match l with
  | [] => None
  | d :: rest =>
      match f d with
      | Raise e => Some (O, e)
      | Ok _ =>
          match first_raise f rest with
          | Some (j, e) => Some (S j, e)
          | None => None
          end
      end
  end.

Fixpoint first_failure (fs : list candidate) (l : list Z)
  : option (nat * nat * exn) :=
  match fs with
  | [] => None
  | f :: rest =>
      match first_raise f l with
      | Some (j, e) => Some (O, j, e)
      | None =>
          match first_failure rest l with
          | Some (i, j, e) => Some (S i, j, e)
          | None => None
          end
      end
  end.

(** The frame, and the world, after one completed pass of the loop body of
    [Leap_Benchmark_II.py]. *)
Definition store_row (d : DataFrame) (title : string) (vals : list Q)
  : DataFrame :=
  match loc_set_slice d title "1900" "2020" vals with
  | Ok res => fst res
  | Raise _ => d
  end.

Definition row_events (title : string) (vals : list Q) : list event :=
  Console (RowLine title vals)
  :: map (fun cv => Assign title (fst cv) (snd cv))
         (combine Leap_Benchmark_II.col_headers vals).

Definition after_row (clock : N -> Q) (w : World) (title : string) : World :=
  let vals := row_values clock (ncalls w) Leap_Benchmark_II.input_data in
  mk_world (ncalls w + 4 * per_cell)
           (store_row (df w) title vals)
           (trace w ++ row_events title vals).

Definition step (clock : N -> Q) (w : World) (ft : candidate * string)
  : World :=
  after_row clock w (snd ft).

(** The world after one completed block, and after the blocks of some
    columns, of the loop body of [Leap_benchmarking.py]. *)
Definition after_block (clock : N -> Q) (descriptor : string)
    (w : World) (year : string) : World :=
  let val := I_value clock (ncalls w) in
  mk_world (ncalls w + Leap_benchmarking.loops)
           (loc_set (df w) descriptor year val)
           (trace w ++ [Console (CellLine descriptor year val);
                        Assign descriptor year val]).

Definition after_blocks (clock : N -> Q) (w : World) (descriptor : string)
    (cols : list string) : World :=
  fold_left (after_block clock descriptor) cols w.

Definition step_I (clock : N -> Q) (w : World) (descriptor : string)
  : World :=
  after_blocks clock w descriptor Leap_benchmarking.col_headers.

(** The world once [df] has been created, and what [presentation] makes of
    a world. *)
Definition started : World :=
  mk_world 0
    (DataFrame_nan Leap_Benchmark_II.row_headers
                   Leap_Benchmark_II.col_headers) [].

Definition finished (w : World) : World :=
  mk_world (ncalls w) (df w)
    (trace w ++ [SaveFig "../leap_timeit_bar_plot-dark.svg";
                 Console (TextLine "Dataframe in Markdown format:");
                 Console (MarkdownLine (df w))]).

(** The candidates [zip(functions, row_headers)] reaches. *)
Definition timed (fs : list candidate) : list candidate :=
  map fst (combine fs Leap_Benchmark_II.row_headers).

(** The world at the end of a timing loop that ran through, and the world
    in which a loop stops when the pair in row [i], column [j] raises. *)
Definition measured_II (clock : N -> Q) (fs : list candidate) : World :=
  fold_left (step clock) (combine fs Leap_Benchmark_II.row_headers) started.

Definition aborted_II (clock : N -> Q) (fs : list candidate) (i j : nat)
  : World :=
  bump (N.of_nat j * per_cell + 1)
       (fold_left (step clock)
                  (firstn i (combine fs Leap_Benchmark_II.row_headers))
                  started).

Definition measured_I (clock : N -> Q) : World :=
  fold_left (step_I clock) Leap_benchmarking.row_headers started.

Definition aborted_I (clock : N -> Q) (i j : nat) : World :=
  bump 1
    (after_blocks clock
       (fold_left (step_I clock) (firstn i Leap_benchmarking.row_headers)
                  started)
       (nth i Leap_benchmarking.row_headers EmptyString)
       (firstn j Leap_benchmarking.col_headers)).

(** *** Properties of a world *)

(** How often the cell at two labels was stored to. *)
Definition times_assigned (w : World) (r c : string) : nat :=
  List.length
    (filter (fun rc => String.eqb (fst rc) r && String.eqb (snd rc) c)
            (assigned w)).

(** Every cell of the four rows and four columns holds a number and was
    stored to exactly once. *)
Definition populated_once (w : World) : Prop :=
  forall r c,
    In r Leap_Benchmark_II.row_headers ->
    In c Leap_Benchmark_II.col_headers ->
    (exists v, at_ (df w) r c = Some (Num v)) /\
    times_assigned w r c = 1%nat.

(** The frame has the rows and columns it was created with. *)
Definition framed (w : World) : Prop :=
  index (df w) = Leap_Benchmark_II.row_headers /\
  columns (df w) = Leap_Benchmark_II.col_headers.

(** The files written so far are exactly [F]. *)
Definition wrote (F : list string) (w : World) : Prop := files w = F.

(** A computation keeps a property of the world, however it ends. *)
Definition preserves (P : World -> Prop) {A} (m : M A) : Prop :=
  forall w, P w -> P (snd (m w)).


(** *** Durations of single calls *)

(** The duration of the call that starts when [k] calls have completed. *)
Definition call_duration (clock : N -> Q) (k : N) : Q :=
  (clock (k + 1)%N - clock k)%Q.

(** [v] is the shortest of the [reps] calls made from call [start] on. *)
Definition min_single_call (clock : N -> Q) (start reps : N) (v : Q)
  : Prop :=
  (exists k, (start <= k < start + reps)%N /\
             (v == call_duration clock k)%Q) /\
  (forall k, (start <= k < start + reps)%N ->
             (v <= call_duration clock k)%Q).

(** [v] is the time the [reps] calls took together, divided by [reps]. *)
Definition mean_per_call (clock : N -> Q) (start reps : N) (v : Q) : Prop :=
  (v == (clock (start + reps)%N - clock start) / inject_Z (Z.of_N reps))%Q.

(** A clock on which the first million calls take two microseconds each and
    every later call one microsecond. *)
Definition warming_clock (n : N) : Q :=
  if (n <=? 1000000)%N then (2 * Z.of_N n) # 1000000
  else (Z.of_N n + 1000000) # 1000000.

(** A clock that stands still. *)
Definition still_clock (n : N) : Q := 0.

(** *** The events of the timing loops *)

Definition enumerate {A} (l : list A) : list (nat * A) :=
  combine (seq 0 (List.length l)) l.



(** *** Further vocabulary *)


(** A candidate that answers false whatever the year, and lists that hold
    nothing else. *)
Definition always_false : candidate := pure (fun _ => false).

Definition functions_all_false : list candidate :=
  [always_false; always_false; always_false; always_false].

Definition setups_all_false : list (string * candidate) :=
  [("if-statements"%string, always_false);
   ("ternary"%string, always_false);
   ("datetime-add"%string, always_false);
   ("calendar-isleap"%string, always_false)].


(** The dictionary [setups] without its entry for ["datetime-add"]. *)
Definition setups_without_datetime : list (string * candidate) :=
  [("if-statements"%string, pure Leap_benchmarking.if_statements.leap_year);
   ("ternary"%string, pure Leap_benchmarking.ternary.leap_year);
   ("calendar-isleap"%string,
    pure Leap_benchmarking.calendar_isleap.leap_year)].

(** ** The chart code

    After the timing loop both scripts style the chart.  The parts below
    are the ones that compute with Python lists: which grid lines and tick
    labels are hidden, and which texts label the bars.  An artist of the
    axis is represented by its visibility flag; the artists of an axis are
    kept in the order the axis lists them (grid lines in tick order; tick
    labels in tick order too, the left-hand ones before the right-hand
    ones), and the lists the scripts index hold references to them (their
    positions), so that a change made through a reversed list is a change
    of the artist itself.  When a statement raises, what is kept is the
    exception: the artists hidden before it stay hidden, but nothing reads
    them any more. *)

Module Chart.

(** What indexing a list produces: an item, or [IndexError]. *)
Inductive result (A : Type) : Type :=
| Done (a : A)
| IndexError.

Arguments Done {A} a.
Arguments IndexError {A}.

Definition and_then {A B} (r : result A) (k : A -> result B) : result B :=
  match r with
  | Done a => k a
  | IndexError => IndexError
  end.

(** [l[i]]: a negative index counts from the end. *)
Definition getitem {A} (l : list A) (i : Z) : result A :=
  let n := Z.of_nat (List.length l) in
  let i := if i <? 0 then i + n else i in
  if (0 <=? i) && (i <? n) then
    match nth_error l (Z.to_nat i) with
    | Some a => Done a
    | None => IndexError
    end
  else IndexError.

Definition artists : Type := list bool.

(** [ax2.get_ygridlines()]: the references to the grid lines of all ticks,
    visible or not. *)
Definition get_ygridlines (h : artists) : list nat := seq 0 (List.length h).

(** [ax2.get_yticklabels()]: the axis lists the labels of its ticks and
    keeps those that are visible ([if tick.label1.get_visible()]); the
    list is built anew at every call. *)
Definition get_yticklabels (h : artists) : list nat :=
  filter (fun ref => nth ref h false) (seq 0 (List.length h)).

(** [artist.set_visible(b)]. *)
Definition set_visible (ref : nat) (b : bool) (h : artists) : artists :=
  set_nth ref b h.

(** [refs[number].set_visible(b)]. *)
Definition set_visible_at (refs : list nat) (number : Z) (b : bool)
    (h : artists) : result artists :=
  and_then (getitem refs number) (fun ref => Done (set_visible ref b h)).

(** [for number in numbers: gridlines[number].set_visible(False)]. *)
Fixpoint hide_numbered (gridlines : list nat) (numbers : list Z)
    (h : artists) : result artists :=
  match numbers with
  | [] => Done h
  | number :: rest =>
      and_then (set_visible_at gridlines number false h)
               (hide_numbered gridlines rest)
  end.

(** [for grid in gridlines: grid.set_visible(False)]. *)
Definition hide_all (gridlines : list nat) (h : artists) : artists :=
  fold_left (fun h grid => set_visible grid false h) gridlines h.

(** The grid lines of [Leap_Benchmark_II.py]:
    [gridlines = ax2.get_ygridlines()[::-1]] and the loop over
    [(-1, 0, 2, 3, 4, 5)]. *)
Definition gridlines_II (h : artists) : result artists :=
  let gridlines := rev (get_ygridlines h) in
  hide_numbered gridlines [-1; 0; 2; 3; 4; 5] h.

(** The grid lines of [Leap_benchmarking.py]: all hidden, then
    [gridlines[-3]], [gridlines[-2]] and [gridlines[1]] shown. *)
Definition gridlines_I (h : artists) : result artists :=
  let gridlines := rev (get_ygridlines h) in
  let h := hide_all gridlines h in
  and_then (set_visible_at gridlines (-3) true h) (fun h =>
  and_then (set_visible_at gridlines (-2) true h) (fun h =>
  set_visible_at gridlines 1 true h)).

(** The tick labels of both scripts:
    [plt.setp(ax2.get_yticklabels()[0], visible=False)] and the same for
    [[-1]]; the second statement asks the axis again, after the first has
    hidden a label. *)
Definition yticklabels (h : artists) : result artists :=
  and_then (set_visible_at (get_yticklabels h) 0 false h) (fun h =>
  set_visible_at (get_yticklabels h) (-1) false h).

(** The loop over [enumerate(ax2.containers)], from [number] on: the
    labels of a container are four copies of [col_headers[number]]; what
    is kept of [ax2.bar_label] is the container and the labels it is
    called with. *)
Fixpoint bar_labels_from {C} (number : nat) (containers : list C)
  : result (list (C * list string)) :=
  match containers with
  | [] => Done []
  | container :: rest =>
      and_then (getitem Leap_Benchmark_II.col_headers (Z.of_nat number))
        (fun header =>
      let labels := map (fun _ => header) (seq 0 4) in
      and_then (bar_labels_from (S number) rest) (fun calls =>
      Done ((container, labels) :: calls)))
  end.

Definition bar_labels {C} (containers : list C)
  : result (list (C * list string)) :=
  bar_labels_from 0 containers.

(** The positions the grid-line code of each script leaves visible, or
    leaves as they were. *)
Definition untouched_II (n k : nat) : bool :=
  negb (Nat.eqb k 0 || Nat.eqb k (n - 1) || Nat.eqb k (n - 3)
        || Nat.eqb k (n - 4) || Nat.eqb k (n - 5) || Nat.eqb k (n - 6)).

Definition shown_I (n k : nat) : bool :=
  Nat.eqb k 1 || Nat.eqb k 2 || Nat.eqb k (n - 2).

End Chart.

(** ** [StaticColorAxisBBox]

    The class overrides two setters of the patch it derives from.  The
    base class is a parameter: its state, its colours, and the two methods
    the overrides call. *)

Module StaticColorAxisBBox.

Section Class.

Variable Patch : Type.
Variable color : Type.
Variable _set_edgecolor : Patch -> color -> Patch.
Variable Patch_set_linewidth : Patch -> Q -> Patch.

(** An instance: the attribute [_original_edgecolor], when the instance
    has it, and the state of the base class. *)
Record t : Type := mk {
  _original_edgecolor : option color;
  super : Patch
}.

Definition set_edgecolor (self : t) (c : color) : t :=
  match _original_edgecolor self with
  | Some _ => self
  | None => mk (Some c) (_set_edgecolor (super self) c)
  end.

Definition set_linewidth (self : t) (w : Q) : t :=
  mk (_original_edgecolor self) (Patch_set_linewidth (super self) (3 # 2)).

(** A call of one of the two setters, and a sequence of calls. *)
Inductive call : Type :=
| SetEdgecolor (c : color)
| SetLinewidth (w : Q).

Definition perform (self : t) (c : call) : t :=
  match c with
  | SetEdgecolor c => set_edgecolor self c
  | SetLinewidth w => set_linewidth self w
  end.

Definition linewidth_calls (calls : list call) : nat :=
  List.length
    (filter (fun c => match c with SetLinewidth _ => true | _ => false end)
            calls).

End Class.

Arguments mk {Patch color} _original_edgecolor super.
Arguments _original_edgecolor {Patch color} self : rename.
Arguments super {Patch color} self : rename.
Arguments set_edgecolor {Patch color} _set_edgecolor self c.
Arguments set_linewidth {Patch color} Patch_set_linewidth self w.
Arguments SetEdgecolor {color} c.
Arguments SetLinewidth {color} w.
Arguments perform {Patch color} _set_edgecolor Patch_set_linewidth self c.
Arguments linewidth_calls {color} calls.

End StaticColorAxisBBox.

(** * The candidates *)

Section Candidates.

Import Leap_Benchmark_II.

Lemma check_years_sound p : forall count from,
  check_years p from count = true ->
  forall y, from <= y < from + Z.of_nat count -> p y = true.
Proof.
  induction count as [|k IH]; intros from H y Hy.
  - simpl in Hy. lia.
  - simpl in H. apply andb_true_iff in H as [H0 H1].
    destruct (Z.eq_dec y from) as [->|Hne]; [exact H0|].
    apply (IH (from + 1) H1). lia.
Qed.

Lemma outcome_bool_eqb_eq a b : outcome_bool_eqb a b = true -> a = b.
Proof.
  destruct a as [x|e], b as [y|e']; simpl; try discriminate.
  - intros H. apply Bool.eqb_prop in H. now subst.
  - destruct e, e'; simpl; try discriminate; reflexivity.
Qed.

(** Inside the years [datetime] accepts, adding a day to 28 February lands
    on the 29th exactly in the years the modulo test calls leap. *)
Lemma leap_datetime_in_range year :
  1 <= year <= 9999 -> leap_datetime year = Ok (leap_if_statements year).
Proof.
  intros H. apply outcome_bool_eqb_eq.
  apply (check_years_sound
           (fun y => outcome_bool_eqb (leap_datetime y)
                                      (Ok (leap_if_statements y)))
           (Z.to_nat 9999) 1).
  - vm_compute. reflexivity.
  - lia.
Qed.

Lemma leap_datetime_out_of_range year :
  year < 1 \/ 9999 < year ->
  leap_datetime year
  = Raise (if Datetime.fits_c_int year then ValueError else OverflowError).
Proof.
  intros H. unfold leap_datetime, Datetime.new, Datetime.as_c_int.
  destruct (Datetime.fits_c_int year); [|reflexivity].
  cbn [obind]. change (Datetime.fits_c_int 2) with true.
  change (Datetime.fits_c_int 28) with true. cbn [obind].
  unfold Datetime._check_date_fields, Datetime.MINYEAR, Datetime.MAXYEAR.
  destruct (Z.leb_spec 1 year); destruct (Z.leb_spec year 9999);
    cbn [andb negb obind]; try reflexivity.
  lia.
Qed.

Lemma centuries year :
  (year mod 100 = 0 -> year mod 4 = 0) /\
  (year mod 400 = 0 -> year mod 100 = 0).
Proof.
  split; intros H; Z.to_euclidean_division_equations; lia.
Qed.

Lemma leap_ternary_eq year : leap_ternary year = leap_if_statements year.
Proof.
  unfold leap_ternary, leap_if_statements.
  destruct (centuries year) as [H1 H2].
  destruct (Z.eqb_spec (year mod 100) 0) as [E|E];
    destruct (Z.eqb_spec (year mod 400) 0) as [F|F];
    destruct (Z.eqb_spec (year mod 4) 0) as [G|G];
    simpl; try reflexivity; exfalso; auto.
Qed.

Lemma agree_in_range year :
  1 <= year <= 9999 ->
  Forall (fun f : candidate => f year = Ok (leap_if_statements year))
         functions.
Proof.
  intros H. repeat constructor.
  - unfold pure. now rewrite leap_ternary_eq.
  - now apply leap_datetime_in_range.
Qed.

Lemma leap_if_statements_gregorian year :
  leap_if_statements year = true <-> gregorian_leap year.
Proof.
  unfold leap_if_statements, gregorian_leap.
  rewrite <- !Z.mod_divide by discriminate.
  destruct (Z.eqb_spec (year mod 4) 0) as [E|E];
    destruct (Z.eqb_spec (year mod 100) 0) as [F|F];
    destruct (Z.eqb_spec (year mod 400) 0) as [G|G];
    simpl; split; try tauto; try discriminate.
Qed.

(** C1: each of the four candidates, in both scripts, answers false for
    1900, true for 2000, false for 2019 and true for 2020. *)
Theorem candidates_on_the_four_years :
  map leap_if_statements input_data = [false; true; false; true] /\
  map leap_ternary input_data = [false; true; false; true] /\
  map leap_datetime input_data = [Ok false; Ok true; Ok false; Ok true] /\
  map leap_calendar input_data = [false; true; false; true] /\
  Forall (fun f => map f input_data = [Ok false; Ok true; Ok false; Ok true])
         functions /\
  Forall (fun kv => map (snd kv) years
                    = [Ok false; Ok true; Ok false; Ok true])
         Leap_benchmarking.setups.
Proof.
  split; [vm_compute; reflexivity|].
  split; [vm_compute; reflexivity|].
  split; [vm_compute; reflexivity|].
  split; [vm_compute; reflexivity|].
  split; repeat (constructor; [vm_compute; reflexivity|]); constructor.
Qed.

(** C10: for every integer year the if-statement, ternary and calendar
    candidates are equal to each other, and they answer true exactly when
    the Gregorian rule holds: the year is divisible by 4 and is not a
    century that 400 does not divide. *)
Theorem modulo_candidates_follow_the_gregorian_rule :
  forall year,
    leap_ternary year = leap_if_statements year /\
    leap_calendar year = leap_if_statements year /\
    Leap_benchmarking.if_statements.leap_year year
    = leap_if_statements year /\
    Leap_benchmarking.ternary.leap_year year = leap_if_statements year /\
    Leap_benchmarking.calendar_isleap.leap_year year
    = leap_if_statements year /\
    (leap_if_statements year = true <-> gregorian_leap year).
Proof.
  intros year.
  split; [apply leap_ternary_eq|].
  split; [reflexivity|].
  split; [reflexivity|].
  split; [apply leap_ternary_eq|].
  split; [reflexivity|].
  apply leap_if_statements_gregorian.
Qed.

(** C2, as stated, fails: on the year 0 the datetime candidate raises, so
    the four candidates do not return the same boolean. *)
Lemma candidates_agree_counterexample : ~ same_answer functions 0.
Proof.
  intros [b H]. inversion H as [|? ? _ H1]; subst.
  inversion H1 as [|? ? _ H2]; subst.
  inversion H2 as [|? ? H3 _]; subst.
  vm_compute in H3. discriminate.
Qed.

(** C2, amended: for every year from 1 to 9999 the four candidates of
    either script return the same boolean. *)
Theorem candidates_agree_in_range :
  forall year,
    1 <= year <= 9999 ->
    same_answer functions year /\
    same_answer (map snd Leap_benchmarking.setups) year.
Proof.
  intros year H.
  split; exists (leap_if_statements year); exact (agree_in_range year H).
Qed.

Lemma candidates_agree_in_range_witness :
  same_answer functions 2020 /\
  same_answer (map snd Leap_benchmarking.setups) 2020.
Proof. apply candidates_agree_in_range. lia. Defined.

(** C9, as stated, fails in the exception class: a year that does not fit
    a C [int] is refused with [OverflowError], not [ValueError]. *)
Lemma datetime_candidate_counterexample :
  9999 < 2 ^ 31 /\
  leap_datetime (2 ^ 31) = Raise OverflowError /\
  leap_datetime (2 ^ 31) <> Raise ValueError.
Proof.
  split; [reflexivity|]. split; [vm_compute; reflexivity|].
  vm_compute. discriminate.
Qed.

(** C9, amended: the if-statement, ternary and calendar candidates return
    a boolean for every integer year; the datetime candidate raises for
    every year outside 1..9999, [ValueError] when the year fits a C [int]
    and [OverflowError] when it does not; so the four candidates return
    the same boolean exactly on the years from 1 to 9999. *)
Theorem datetime_candidate_range :
  forall year,
    is_ok (pure leap_if_statements year) = true /\
    is_ok (pure leap_ternary year) = true /\
    is_ok (pure leap_calendar year) = true /\
    (year < 1 \/ 9999 < year ->
     leap_datetime year
     = Raise (if Datetime.fits_c_int year then ValueError
              else OverflowError)) /\
    (same_answer functions year <-> 1 <= year <= 9999).
Proof.
  intros year.
  split; [reflexivity|]. split; [reflexivity|]. split; [reflexivity|].
  split; [apply leap_datetime_out_of_range|].
  split.
  - intros [b Hb]. inversion Hb as [|? ? _ H1]; subst.
    inversion H1 as [|? ? _ H2]; subst.
    inversion H2 as [|? ? H3 _]; subst.
    assert (Hin : ~ (year < 1 \/ 9999 < year)).
    { intros Hout. rewrite (leap_datetime_out_of_range year Hout) in H3.
      discriminate. }
    lia.
  - intros H. exists (leap_if_statements year). now apply agree_in_range.
Qed.

Lemma datetime_candidate_range_witness :
  leap_datetime 0 = Raise ValueError /\ same_answer functions 2020.
Proof.
  split.
  - apply (proj1 (proj2 (proj2 (proj2 (datetime_candidate_range 0))))).
    left. lia.
  - apply (proj2 (proj2 (proj2 (proj2 (datetime_candidate_range 2020))))).
    lia.
Defined.

End Candidates.

(** * Running the harness *)

(** ** The monad and [timeit] *)

Lemma bump_0 w : bump 0 w = w.
Proof. destruct w; unfold bump; simpl. now rewrite N.add_0_r. Qed.

Lemma bump_bump a b w : bump b (bump a w) = bump (a + b) w.
Proof. unfold bump; simpl. now rewrite N.add_assoc. Qed.

Lemma bind_ok {A B} (m : M A) (k : A -> M B) w a w' :
  m w = (Ok a, w') -> bind m k w = k a w'.
Proof. unfold bind; intros ->; reflexivity. Qed.

Lemma bind_raise {A B} (m : M A) (k : A -> M B) w e w' :
  m w = (Raise e, w') -> bind m k w = (Raise e, w').
Proof. unfold bind; intros ->; reflexivity. Qed.

Lemma presentation_run w : presentation w = (Ok tt, finished w).
Proof.
  unfold presentation, savefig, print, emit, get_df, bind, finished.
  cbn [ncalls df trace]. now rewrite <- !app_assoc.
Qed.

Lemma put_df_started :
  put_df (DataFrame_nan Leap_Benchmark_II.row_headers
                        Leap_Benchmark_II.col_headers)
         initial_world = (Ok tt, started).
Proof. reflexivity. Qed.

Lemma df_loc_set_run r c v w :
  df_loc_set r c v w
  = (Ok tt, mk_world (ncalls w) (loc_set (df w) r c v)
              (trace w ++ [Assign r c v])).
Proof. reflexivity. Qed.

Lemma emit_each r : forall (l : list (string * Q)) w,
  for_each (fun cv => emit (Assign r (fst cv) (snd cv))) l w
  = (Ok tt, mk_world (ncalls w) (df w)
              (trace w ++ map (fun cv => Assign r (fst cv) (snd cv)) l)).
Proof.
  induction l as [|cv l IH]; intros w.
  - simpl. unfold ret. rewrite app_nil_r. now destruct w.
  - cbn [for_each map]. unfold bind at 1, emit at 1.
    rewrite IH. cbn [ncalls df trace]. now rewrite <- app_assoc.
Qed.

Section TimeitFacts.

Variable clock : N -> Q.
Variable f : candidate.
Variable x : Z.

Lemma stmt_ok b w :
  f x = Ok b -> (call f x ;; ret tt) w = (Ok tt, bump 1 w).
Proof. intros H. unfold bind, call. rewrite H. reflexivity. Qed.

Lemma stmt_raise e w :
  f x = Raise e -> (call f x ;; ret tt) w = (Raise e, bump 1 w).
Proof. intros H. unfold bind, call. rewrite H. reflexivity. Qed.

(** A loop over a call that returns makes all its calls. *)
Lemma for_range_ok b :
  f x = Ok b ->
  forall number w,
    Timeit.for_range number (call f x ;; ret tt) w = (Ok tt, bump number w).
Proof.
  intros H number. unfold Timeit.for_range.
  induction number as [|n IH] using N.peano_ind; intros w.
  - simpl. now rewrite bump_0.
  - rewrite N.iter_succ. rewrite (bind_ok _ _ _ _ _ (IH w)).
    rewrite (stmt_ok b _ H), bump_bump. now rewrite N.add_1_r.
Qed.

(** A loop over a call that raises stops at its first call. *)
Lemma for_range_raise e :
  f x = Raise e ->
  forall number w,
    number <> 0%N ->
    Timeit.for_range number (call f x ;; ret tt) w = (Raise e, bump 1 w).
Proof.
  intros H number. unfold Timeit.for_range.
  induction number as [|n IH] using N.peano_ind; intros w Hn.
  - congruence.
  - rewrite N.iter_succ.
    destruct (N.eq_dec n 0) as [->|Hn0].
    + simpl. unfold bind at 1. simpl. apply (stmt_raise e _ H).
    + apply bind_raise. now apply IH.
Qed.

Lemma timeit_ok b :
  f x = Ok b ->
  forall number w,
    Timeit.timeit clock (call f x ;; ret tt) number w
    = (Ok (clock (ncalls w + number)%N - clock (ncalls w))%Q, bump number w).
Proof.
  intros H number w. unfold Timeit.timeit.
  unfold bind at 1. unfold Timeit.timer at 1.
  rewrite (bind_ok _ _ _ _ _ (for_range_ok b H number w)).
  reflexivity.
Qed.

Lemma timeit_raise e :
  f x = Raise e ->
  forall number w,
    number <> 0%N ->
    Timeit.timeit clock (call f x ;; ret tt) number w = (Raise e, bump 1 w).
Proof.
  intros H number w Hn. unfold Timeit.timeit.
  unfold bind at 1. unfold Timeit.timer at 1.
  apply bind_raise. now apply for_range_raise.
Qed.

Lemma repeat_ok b :
  f x = Ok b ->
  forall number repeat_ w,
    Timeit.repeat clock (call f x ;; ret tt) repeat_ number w
    = (Ok (batch_totals clock (ncalls w) repeat_ number),
       bump (N.of_nat repeat_ * number) w).
Proof.
  intros H number. induction repeat_ as [|k IH]; intros w.
  - simpl. unfold ret. now rewrite bump_0.
  - cbn [Timeit.repeat batch_totals].
    rewrite (bind_ok _ _ _ _ _ (timeit_ok b H number w)).
    rewrite (bind_ok _ _ _ _ _ (IH _)).
    unfold ret. rewrite bump_bump. cbn [bump ncalls].
    f_equal. f_equal. lia.
Qed.

Lemma repeat_raise e :
  f x = Raise e ->
  forall number repeat_ w,
    number <> 0%N -> repeat_ <> O ->
    Timeit.repeat clock (call f x ;; ret tt) repeat_ number w
    = (Raise e, bump 1 w).
Proof.
  intros H number [|k] w Hn Hk; [congruence|].
  cbn [Timeit.repeat]. apply bind_raise. now apply timeit_raise.
Qed.

End TimeitFacts.

(** ** The first failure *)

Lemma first_raise_none f : forall l,
  first_raise f l = None <-> (forall d, In d l -> is_ok (f d) = true).
Proof.
  induction l as [|d rest IH]; cbn [first_raise].
  - split; [intros _ d []|reflexivity].
  - destruct (f d) as [b|e] eqn:Hd.
    + destruct (first_raise f rest) as [[j e]|].
      * split; [discriminate|]. intros H.
        destruct IH as [_ IH]. discriminate IH.
        intros d' Hd'. apply H. now right.
      * split; [|reflexivity]. intros _ d' [<-|Hd']; [now rewrite Hd|].
        now apply IH.
    + split; [discriminate|]. intros H. specialize (H d (or_introl eq_refl)).
      now rewrite Hd in H.
Qed.

Lemma first_failure_none : forall fs l,
  first_failure fs l = None <->
  (forall f d, In f fs -> In d l -> is_ok (f d) = true).
Proof.
  induction fs as [|f rest IH]; intros l; cbn [first_failure].
  - split; [intros _ f d []|reflexivity].
  - destruct (first_raise f l) as [[j e]|] eqn:Hf.
    + split; [discriminate|]. intros H.
      assert (Hn : first_raise f l = None).
      { apply first_raise_none. intros d Hd. apply H; [now left|exact Hd]. }
      congruence.
    + destruct (first_failure rest l) as [[[i j] e]|] eqn:Hr.
      * split; [discriminate|]. intros H.
        assert (Hn : first_failure rest l = None).
        { apply IH. intros f' d Hf' Hd. apply H; [now right|exact Hd]. }
        congruence.
      * split; [|reflexivity]. intros _ f' d [Heq|Hf'] Hd.
        -- subst f'. now apply (proj1 (first_raise_none f l) Hf).
        -- now apply (proj1 (IH l) Hr f').
Qed.

Lemma first_raise_some f : forall l j e,
  first_raise f l = Some (j, e) ->
  exists d, nth_error l j = Some d /\ f d = Raise e /\
            first_raise f (firstn j l) = None.
Proof.
  induction l as [|d rest IH]; intros j e H; [discriminate|].
  cbn [first_raise] in H. destruct (f d) as [b|e0] eqn:Hd.
  - destruct (first_raise f rest) as [[j0 e1]|] eqn:Hr; [|discriminate].
    injection H as <- <-. destruct (IH _ _ eq_refl) as (d' & Hn & Hd' & Hb).
    exists d'. cbn [nth_error firstn first_raise]. rewrite Hd, Hb. auto.
  - injection H as <- <-. exists d. cbn. auto.
Qed.

(** The pair [first_failure] finds raises the exception it reports, and no
    pair before it in the order of the loops raises. *)
Lemma first_failure_some : forall fs l i j e,
  first_failure fs l = Some (i, j, e) ->
  exists f d, nth_error fs i = Some f /\ nth_error l j = Some d /\
              f d = Raise e /\
              first_failure (firstn i fs) l = None /\
              first_raise f (firstn j l) = None.
Proof.
  induction fs as [|f rest IH]; intros l i j e H; [discriminate|].
  cbn [first_failure] in H.
  destruct (first_raise f l) as [[j0 e0]|] eqn:Hf.
  - injection H as <- <- <-.
    destruct (first_raise_some _ _ _ _ Hf) as (d & Hn & Hd & Hb).
    exists f, d. cbn. auto.
  - destruct (first_failure rest l) as [[[i0 j0] e0]|] eqn:Hr; [|discriminate].
    injection H as <- <- <-.
    destruct (IH _ _ _ _ Hr) as (f' & d & Hn & Hd & He & Hb & Hc).
    exists f', d. cbn [nth_error firstn first_failure]. rewrite Hf, Hb. auto.
Qed.

(** ** Labels and frames *)

Lemma get_loc_in label : forall labels,
  In label labels -> exists i, get_loc label labels = Some i.
Proof.
  induction labels as [|l rest IH]; intros H; [destruct H|].
  cbn [get_loc]. destruct (String.eqb_spec label l) as [->|Hne].
  - now exists O.
  - destruct H as [->|H]; [congruence|].
    destruct (IH H) as [i ->]. now exists (S i).
Qed.

Lemma slice_store d title v0 v1 v2 v3 :
  columns d = Leap_Benchmark_II.col_headers ->
  loc_set_slice d title "1900" "2020" [v0; v1; v2; v3]
  = Ok (store_row d title [v0; v1; v2; v3],
        combine Leap_Benchmark_II.col_headers [v0; v1; v2; v3]).
Proof.
  intros Hc. unfold store_row, loc_set_slice. rewrite Hc.
  cbn [slice_locs Leap_Benchmark_II.col_headers get_loc String.eqb Ascii.eqb
       Bool.eqb option_map obind seq Nat.sub].
  unfold with_row.
  destruct (get_loc title (index d));
    cbn [columns obind fst List.length Nat.eqb]; rewrite ?Hc; reflexivity.
Qed.

Lemma store_row_columns d title vals :
  columns (store_row d title vals) = columns d.
Proof.
  unfold store_row, loc_set_slice.
  destruct (slice_locs (columns d) "1900" "2020") as [js|e]; [|reflexivity].
  cbn [obind]. unfold with_row.
  destruct (get_loc title (index d));
    destruct (match vals with
              | [] => _ | _ => _ end) as [vs|e]; reflexivity.
Qed.

Lemma loc_set_frame d r c v :
  In r (index d) -> In c (columns d) ->
  index (loc_set d r c v) = index d /\ columns (loc_set d r c v) = columns d.
Proof.
  intros Hr Hc. unfold loc_set, with_row, with_column.
  destruct (get_loc_in _ _ Hr) as [i ->].
  destruct (get_loc_in _ _ Hc) as [j ->]. now split.
Qed.

Lemma files_app w evs :
  files (mk_world (ncalls w) (df w) (trace w ++ evs))
  = (files w
     ++ flat_map (fun e => match e with SaveFig p => [p] | _ => [] end)
                 evs)%list.
Proof. unfold files; cbn [trace]. apply flat_map_app. Qed.

Lemma row_events_no_file title vals :
  flat_map (fun e => match e with SaveFig p => [p] | _ => [] end)
           (row_events title vals) = [].
Proof.
  unfold row_events. cbn [flat_map app].
  induction (combine Leap_Benchmark_II.col_headers vals) as [|cv l IH];
    [reflexivity|exact IH].
Qed.

(** ** The timing loop of [Leap_Benchmark_II.py] *)

Section Benchmark_II.

Import Leap_Benchmark_II.

Variable clock : N -> Q.

Lemma measure_ok func data b w :
  func data = Ok b ->
  measure clock func data w = (Ok (II_value clock (ncalls w)), bump per_cell w).
Proof.
  intros H. unfold measure.
  rewrite (bind_ok _ _ _ _ _ (repeat_ok clock func data b H _ _ w)).
  reflexivity.
Qed.

Lemma measure_raise func data e w :
  func data = Raise e ->
  measure clock func data w = (Raise e, bump 1 w).
Proof.
  intros H. unfold measure. apply bind_raise.
  apply repeat_raise; [exact H | discriminate | discriminate].
Qed.

Lemma comprehension_ok func : forall l w,
  first_raise func l = None ->
  comprehension (measure clock func) l w
  = (Ok (row_values clock (ncalls w) l),
     bump (N.of_nat (List.length l) * per_cell) w).
Proof.
  induction l as [|d rest IH]; intros w H.
  - simpl. unfold ret. now rewrite bump_0.
  - cbn [first_raise] in H.
    destruct (func d) as [b|e] eqn:Hd; [|discriminate].
    destruct (first_raise func rest) as [[j e]|] eqn:Hr; [discriminate|].
    cbn [comprehension row_values].
    rewrite (bind_ok _ _ _ _ _ (measure_ok func d b w Hd)).
    rewrite (bind_ok _ _ _ _ _ (IH _ eq_refl)).
    unfold ret. rewrite bump_bump. cbn [bump ncalls List.length].
    do 2 f_equal. lia.
Qed.

Lemma comprehension_raise func : forall l w j e,
  first_raise func l = Some (j, e) ->
  comprehension (measure clock func) l w
  = (Raise e, bump (N.of_nat j * per_cell + 1) w).
Proof.
  induction l as [|d rest IH]; intros w j e H; [discriminate|].
  cbn [first_raise] in H. cbn [comprehension].
  destruct (func d) as [b|e0] eqn:Hd.
  - destruct (first_raise func rest) as [[j0 e1]|] eqn:Hr; [|discriminate].
    injection H as <- <-.
    rewrite (bind_ok _ _ _ _ _ (measure_ok func d b w Hd)).
    apply bind_raise. rewrite (IH _ _ _ eq_refl), bump_bump.
    do 2 f_equal. lia.
  - injection H as <- <-. apply bind_raise.
    now rewrite (measure_raise func d e0 w Hd).
Qed.

(** A pass of the loop body whose candidate raises on no input measures
    four cells, prints them and stores them. *)
Lemma row_ok func title w :
  first_raise func input_data = None ->
  columns (df w) = col_headers ->
  row clock (func, title) w = (Ok tt, after_row clock w title).
Proof.
  intros Hf Hc. unfold row.
  rewrite (bind_ok _ _ _ _ _ (comprehension_ok func input_data w Hf)).
  unfold bind at 1, print at 1, emit at 1.
  unfold df_loc_set_slice. unfold bind at 1, get_df at 1.
  cbn [df ncalls trace]. unfold bind at 1, lift at 1.
  cbn [row_values input_data].
  rewrite slice_store by exact Hc.
  unfold bind at 1, put_df at 1. cbn [fst snd ncalls trace df].
  rewrite emit_each. cbn [ncalls df trace].
  unfold after_row, row_events. cbn [row_values input_data].
  rewrite <- app_assoc. cbn [app].
  unfold bump; cbn [ncalls df trace List.length input_data].
  do 2 f_equal.
Qed.

(** A pass whose candidate raises stops at the raising call: nothing is
    printed and nothing is stored for its row. *)
Lemma row_raise func title w j e :
  first_raise func input_data = Some (j, e) ->
  row clock (func, title) w = (Raise e, bump (N.of_nat j * per_cell + 1) w).
Proof.
  intros Hf. unfold row. apply bind_raise.
  now apply comprehension_raise.
Qed.

Lemma step_columns w ft : columns (df (step clock w ft)) = columns (df w).
Proof. apply store_row_columns. Qed.

Lemma step_files w ft : files (step clock w ft) = files w.
Proof.
  unfold step, after_row, files. cbn [trace].
  rewrite flat_map_app, row_events_no_file. apply app_nil_r.
Qed.

Lemma steps_files : forall pairs w,
  files (fold_left (step clock) pairs w) = files w.
Proof.
  induction pairs as [|ft rest IH]; intros w; [reflexivity|].
  cbn [fold_left]. now rewrite IH, step_files.
Qed.

Lemma steps_ncalls : forall pairs w,
  ncalls (fold_left (step clock) pairs w)
  = (ncalls w + N.of_nat (List.length pairs) * (4 * per_cell))%N.
Proof.
  induction pairs as [|ft rest IH]; intros w.
  - cbn. lia.
  - cbn [fold_left List.length]. rewrite IH.
    change (ncalls (step clock w ft)) with (ncalls w + 4 * per_cell)%N. lia.
Qed.

Lemma timings_ok : forall pairs w,
  first_failure (map fst pairs) input_data = None ->
  columns (df w) = col_headers ->
  for_each (row clock) pairs w = (Ok tt, fold_left (step clock) pairs w).
Proof.
  induction pairs as [|[f t] rest IH]; intros w Hf Hc; [reflexivity|].
  cbn [map fst first_failure] in Hf.
  destruct (first_raise f input_data) as [[j e]|] eqn:Hr; [discriminate|].
  destruct (first_failure (map fst rest) input_data) as [[[i j] e]|] eqn:Hrest;
    [discriminate|].
  cbn [for_each fold_left].
  rewrite (bind_ok _ _ _ _ _ (row_ok f t w Hr Hc)).
  apply IH; [reflexivity|].
  now rewrite (step_columns w (f, t)).
Qed.

Lemma timings_raise : forall pairs w i j e,
  first_failure (map fst pairs) input_data = Some (i, j, e) ->
  columns (df w) = col_headers ->
  for_each (row clock) pairs w
  = (Raise e,
     bump (N.of_nat j * per_cell + 1)
          (fold_left (step clock) (firstn i pairs) w)).
Proof.
  induction pairs as [|[f t] rest IH]; intros w i j e Hf Hc; [discriminate|].
  cbn [map fst first_failure] in Hf.
  destruct (first_raise f input_data) as [[j0 e0]|] eqn:Hr.
  - injection Hf as <- <- <-. cbn [for_each firstn fold_left].
    apply bind_raise. now apply row_raise.
  - destruct (first_failure (map fst rest) input_data)
      as [[[i0 j0] e0]|] eqn:Hrest; [|discriminate].
    injection Hf as <- <- <-. cbn [for_each firstn fold_left].
    rewrite (bind_ok _ _ _ _ _ (row_ok f t w Hr Hc)).
    apply IH; [reflexivity|].
    now rewrite (step_columns w (f, t)).
Qed.

Lemma harness_II_from_started fs :
  harness clock fs initial_world = timings clock fs started.
Proof.
  unfold harness. now rewrite (bind_ok _ _ _ _ _ put_df_started).
Qed.

Lemma harness_II_ok fs :
  first_failure (timed fs) input_data = None ->
  harness clock fs initial_world = (Ok tt, measured_II clock fs).
Proof.
  intros H. rewrite harness_II_from_started.
  apply (timings_ok _ started H eq_refl).
Qed.

Lemma harness_II_raise fs i j e :
  first_failure (timed fs) input_data = Some (i, j, e) ->
  harness clock fs initial_world = (Raise e, aborted_II clock fs i j).
Proof.
  intros H. rewrite harness_II_from_started.
  now apply timings_raise.
Qed.

Lemma script_II_ok fs :
  first_failure (timed fs) input_data = None ->
  script clock fs initial_world = (Ok tt, finished (measured_II clock fs)).
Proof.
  intros H. unfold script.
  rewrite (bind_ok _ _ _ _ _ (harness_II_ok fs H)).
  apply presentation_run.
Qed.

Lemma script_II_raise fs i j e :
  first_failure (timed fs) input_data = Some (i, j, e) ->
  script clock fs initial_world = (Raise e, aborted_II clock fs i j).
Proof.
  intros H. unfold script.
  apply bind_raise. now apply harness_II_raise.
Qed.

Lemma functions_clean : first_failure (timed functions) input_data = None.
Proof. vm_compute. reflexivity. Qed.

Lemma main_II_run :
  main clock initial_world = (Ok tt, finished (measured_II clock functions)).
Proof. unfold main. apply script_II_ok, functions_clean. Qed.

Lemma timed_length fs :
  List.length (timed fs) = List.length (combine fs row_headers).
Proof. unfold timed. apply length_map. Qed.

Lemma aborted_II_ncalls fs i j :
  (i < List.length (timed fs))%nat ->
  ncalls (aborted_II clock fs i j) = (N.of_nat (4 * i + j) * per_cell + 1)%N.
Proof.
  intros Hi. unfold aborted_II, bump. cbn [ncalls].
  rewrite steps_ncalls. cbn [started ncalls].
  rewrite length_firstn, <- timed_length. rewrite Nat.min_l by lia. lia.
Qed.

Lemma aborted_II_files fs i j : files (aborted_II clock fs i j) = [].
Proof.
  unfold aborted_II, bump, files. cbn [trace].
  change (files (fold_left (step clock) (firstn i (combine fs row_headers))
                           started) = []).
  now rewrite steps_files.
Qed.

Lemma cell_II fs i j r c :
  List.length fs = 4%nat ->
  nth_error row_headers i = Some r ->
  nth_error col_headers j = Some c ->
  at_ (df (finished (measured_II clock fs))) r c
  = Some (Num (II_value clock (N.of_nat (4 * i + j) * per_cell))).
Proof.
  intros Hlen Hr Hc.
  destruct fs as [|f0 [|f1 [|f2 [|f3 [|f4 fs]]]]]; try discriminate.
  destruct i as [|[|[|[|i]]]]; cbn in Hr; try (destruct i; discriminate);
    injection Hr as <-;
    (destruct j as [|[|[|[|j]]]]; cbn in Hc; try (destruct j; discriminate);
     injection Hc as <-; cbv -[II_value]; reflexivity).
Qed.

Lemma populated_II fs :
  (4 <= List.length fs)%nat ->
  populated_once (finished (measured_II clock fs)).
Proof.
  intros Hlen r c Hr Hc.
  destruct fs as [|f0 [|f1 [|f2 [|f3 rest]]]]; try (cbn in Hlen; lia).
  cbv [row_headers In] in Hr. cbv [col_headers In] in Hc.
  destruct rest as [|f4 rest];
    destruct Hr as [<-|[<-|[<-|[<-|[]]]]];
    destruct Hc as [<-|[<-|[<-|[<-|[]]]]];
    (split; [eexists; cbv -[II_value]; reflexivity
            | cbv -[II_value]; reflexivity]).
Qed.



End Benchmark_II.

(** ** The timing loop of [Leap_benchmarking.py] *)

Section Benchmarking.

Import Leap_benchmarking.

Variable clock : N -> Q.
Variable setups : list (string * candidate).

Lemma block_ok descriptor f y year b w :
  getitem setups descriptor = Ok f -> f y = Ok b ->
  block clock setups descriptor y year w
  = (Ok tt, after_block clock descriptor w year).
Proof.
  intros Hs Hf. unfold block. unfold bind at 1, lift at 1. rewrite Hs.
  rewrite (bind_ok _ _ _ _ _ (timeit_ok clock f y b Hf loops w)).
  unfold df_loc_set, print, emit, get_df, put_df, bind, after_block, bump.
  cbn [ncalls df trace]. now rewrite <- app_assoc.
Qed.

Lemma block_raise descriptor f y year e w :
  getitem setups descriptor = Ok f -> f y = Raise e ->
  block clock setups descriptor y year w = (Raise e, bump 1 w).
Proof.
  intros Hs Hf. unfold block. unfold bind at 1, lift at 1. rewrite Hs.
  apply bind_raise. apply timeit_raise; [exact Hf | discriminate].
Qed.

Lemma block_missing descriptor y year e w :
  getitem setups descriptor = Raise e ->
  block clock setups descriptor y year w = (Raise e, w).
Proof.
  intros Hs. unfold block. unfold bind at 1, lift at 1. now rewrite Hs.
Qed.

Lemma body_ok descriptor f w :
  getitem setups descriptor = Ok f ->
  first_raise f years = None ->
  body clock setups descriptor w
  = (Ok tt, after_blocks clock w descriptor col_headers).
Proof.
  intros Hs Hf. unfold years in Hf. cbn [first_raise] in Hf.
  destruct (f 1900) as [b0|] eqn:H0; [|discriminate].
  destruct (f 2000) as [b1|] eqn:H1; [|discriminate].
  destruct (f 2019) as [b2|] eqn:H2; [|discriminate].
  destruct (f 2020) as [b3|] eqn:H3; [|discriminate].
  unfold body.
  rewrite (bind_ok _ _ _ _ _ (block_ok _ _ _ _ _ w Hs H0)).
  rewrite (bind_ok _ _ _ _ _ (block_ok _ _ _ _ _ _ Hs H1)).
  rewrite (bind_ok _ _ _ _ _ (block_ok _ _ _ _ _ _ Hs H2)).
  rewrite (block_ok _ _ _ _ _ _ Hs H3).
  reflexivity.
Qed.

Lemma body_raise descriptor f w j e :
  getitem setups descriptor = Ok f ->
  first_raise f years = Some (j, e) ->
  body clock setups descriptor w
  = (Raise e,
     bump 1 (after_blocks clock w descriptor (firstn j col_headers))).
Proof.
  intros Hs Hf. unfold years in Hf. cbn [first_raise] in Hf. unfold body.
  destruct (f 1900) as [b0|e0] eqn:H0.
  2:{ injection Hf as <- <-. apply bind_raise. now apply block_raise with f. }
  rewrite (bind_ok _ _ _ _ _ (block_ok _ _ _ _ _ w Hs H0)).
  destruct (f 2000) as [b1|e1] eqn:H1.
  2:{ injection Hf as <- <-. apply bind_raise. now apply block_raise with f. }
  rewrite (bind_ok _ _ _ _ _ (block_ok _ _ _ _ _ _ Hs H1)).
  destruct (f 2019) as [b2|e2] eqn:H2.
  2:{ injection Hf as <- <-. apply bind_raise. now apply block_raise with f. }
  rewrite (bind_ok _ _ _ _ _ (block_ok _ _ _ _ _ _ Hs H2)).
  destruct (f 2020) as [b3|e3] eqn:H3; [discriminate|].
  injection Hf as <- <-. now apply block_raise with f.
Qed.

Lemma timings_I_ok : forall rows fs w,
  Forall2 (fun r f => getitem setups r = Ok f) rows fs ->
  first_failure fs years = None ->
  for_each (body clock setups) rows w
  = (Ok tt, fold_left (step_I clock) rows w).
Proof.
  intros rows fs w H. revert w.
  induction H as [|r f rows fs Hr Hrest IH]; intros w Hf; [reflexivity|].
  cbn [first_failure] in Hf.
  destruct (first_raise f years) as [[j e]|] eqn:Hfr; [discriminate|].
  destruct (first_failure fs years) as [[[i j] e]|] eqn:Hff; [discriminate|].
  cbn [for_each fold_left].
  rewrite (bind_ok _ _ _ _ _ (body_ok r f w Hr Hfr)).
  now apply IH.
Qed.

Lemma timings_I_raise : forall rows fs w i j e,
  Forall2 (fun r f => getitem setups r = Ok f) rows fs ->
  first_failure fs years = Some (i, j, e) ->
  for_each (body clock setups) rows w
  = (Raise e,
     bump 1 (after_blocks clock (fold_left (step_I clock) (firstn i rows) w)
               (nth i rows EmptyString) (firstn j col_headers))).
Proof.
  intros rows fs w i j e H. revert w i j e.
  induction H as [|r f rows fs Hr Hrest IH]; intros w i j e Hf;
    [discriminate|].
  cbn [first_failure] in Hf.
  destruct (first_raise f years) as [[j0 e0]|] eqn:Hfr.
  - injection Hf as <- <- <-. cbn [for_each firstn fold_left nth].
    apply bind_raise. now apply body_raise with f.
  - destruct (first_failure fs years) as [[[i0 j0] e0]|] eqn:Hff;
      [|discriminate].
    injection Hf as <- <- <-. cbn [for_each firstn fold_left nth].
    rewrite (bind_ok _ _ _ _ _ (body_ok r f w Hr Hfr)).
    now apply IH.
Qed.

(** A loop that ran through found every setup and met no raising call. *)
Lemma timings_I_inv : forall rows w,
  is_ok (fst (for_each (body clock setups) rows w)) = true ->
  exists fs,
    Forall2 (fun r f => getitem setups r = Ok f) rows fs /\
    first_failure fs years = None.
Proof.
  induction rows as [|r rows IH]; intros w H.
  - exists []. split; [constructor | reflexivity].
  - cbn [for_each] in H.
    destruct (getitem setups r) as [f|e] eqn:Hr.
    + destruct (first_raise f years) as [[j e]|] eqn:Hf.
      * rewrite (bind_raise _ _ _ _ _ (body_raise r f w j e Hr Hf)) in H.
        discriminate.
      * rewrite (bind_ok _ _ _ _ _ (body_ok r f w Hr Hf)) in H.
        destruct (IH _ H) as (fs & Hfs & Hnone).
        exists (f :: fs). split; [now constructor|].
        cbn [first_failure]. now rewrite Hf, Hnone.
    + assert (Hb : body clock setups r w = (Raise e, w)).
      { unfold body. apply bind_raise. now apply block_missing. }
      rewrite (bind_raise _ _ _ _ _ Hb) in H. discriminate.
Qed.

Lemma harness_I_from_started :
  harness clock setups initial_world = timings clock setups started.
Proof.
  unfold harness. now rewrite (bind_ok _ _ _ _ _ put_df_started).
Qed.

Lemma harness_I_ok fs :
  Forall2 (fun r f => getitem setups r = Ok f) row_headers fs ->
  first_failure fs years = None ->
  harness clock setups initial_world = (Ok tt, measured_I clock).
Proof.
  intros Hs H. rewrite harness_I_from_started.
  apply (timings_I_ok _ _ started Hs H).
Qed.

Lemma harness_I_raise fs i j e :
  Forall2 (fun r f => getitem setups r = Ok f) row_headers fs ->
  first_failure fs years = Some (i, j, e) ->
  harness clock setups initial_world = (Raise e, aborted_I clock i j).
Proof.
  intros Hs H. rewrite harness_I_from_started.
  now apply (timings_I_raise _ fs).
Qed.

Lemma script_I_ok fs :
  Forall2 (fun r f => getitem setups r = Ok f) row_headers fs ->
  first_failure fs years = None ->
  script clock setups initial_world = (Ok tt, finished (measured_I clock)).
Proof.
  intros Hs H. unfold script.
  rewrite (bind_ok _ _ _ _ _ (harness_I_ok fs Hs H)).
  apply presentation_run.
Qed.

Lemma script_I_raise fs i j e :
  Forall2 (fun r f => getitem setups r = Ok f) row_headers fs ->
  first_failure fs years = Some (i, j, e) ->
  script clock setups initial_world = (Raise e, aborted_I clock i j).
Proof.
  intros Hs H. unfold script.
  apply bind_raise. now apply (harness_I_raise fs).
Qed.

End Benchmarking.

Section Benchmarking_tables.

Import Leap_benchmarking.

Variable clock : N -> Q.

Lemma setups_found :
  Forall2 (fun r f => getitem setups r = Ok f) row_headers (map snd setups).
Proof. repeat constructor. Qed.

Lemma setups_clean : first_failure (map snd setups) years = None.
Proof. vm_compute. reflexivity. Qed.

Lemma main_I_run :
  main clock initial_world = (Ok tt, finished (measured_I clock)).
Proof.
  unfold main.
  apply script_I_ok with (map snd setups);
    [apply setups_found | apply setups_clean].
Qed.

Lemma after_blocks_ncalls d : forall cols w,
  ncalls (after_blocks clock w d cols)
  = (ncalls w + N.of_nat (List.length cols) * loops)%N.
Proof.
  unfold after_blocks.
  induction cols as [|c cols IH]; intros w; cbn [fold_left List.length].
  - lia.
  - rewrite IH.
    change (ncalls (after_block clock d w c)) with (ncalls w + loops)%N. lia.
Qed.

Lemma steps_I_ncalls : forall rows w,
  ncalls (fold_left (step_I clock) rows w)
  = (ncalls w + N.of_nat (List.length rows) * (4 * loops))%N.
Proof.
  induction rows as [|r rows IH]; intros w; cbn [fold_left List.length].
  - lia.
  - rewrite IH. unfold step_I. rewrite after_blocks_ncalls.
    cbn [col_headers List.length]. lia.
Qed.

Lemma aborted_I_ncalls i j :
  (i < 4)%nat -> (j < 4)%nat ->
  ncalls (aborted_I clock i j) = (N.of_nat (4 * i + j) * loops + 1)%N.
Proof.
  intros Hi Hj. unfold aborted_I, bump. cbn [ncalls].
  rewrite after_blocks_ncalls, steps_I_ncalls. cbn [started ncalls].
  rewrite !length_firstn.
  cbn [row_headers col_headers List.length].
  rewrite !Nat.min_l by lia. lia.
Qed.

Lemma cell_I i j r c :
  nth_error row_headers i = Some r ->
  nth_error col_headers j = Some c ->
  at_ (df (finished (measured_I clock))) r c
  = Some (Num (I_value clock (N.of_nat (4 * i + j) * loops))).
Proof.
  intros Hr Hc.
  destruct i as [|[|[|[|i]]]]; cbn in Hr; try (destruct i; discriminate);
    injection Hr as <-;
    (destruct j as [|[|[|[|j]]]]; cbn in Hc; try (destruct j; discriminate);
     injection Hc as <-; cbv -[I_value]; reflexivity).
Qed.

Lemma populated_I : populated_once (finished (measured_I clock)).
Proof.
  intros r c Hr Hc.
  cbv [Leap_Benchmark_II.row_headers In] in Hr.
  cbv [Leap_Benchmark_II.col_headers In] in Hc.
  destruct Hr as [<-|[<-|[<-|[<-|[]]]]];
    destruct Hc as [<-|[<-|[<-|[<-|[]]]]];
    (split; [eexists; cbv -[I_value]; reflexivity
            | cbv -[I_value]; reflexivity]).
Qed.


End Benchmarking_tables.

(** ** What every run keeps

    Properties that hold of the world wherever a run stops, whether it ends
    normally or by an exception.  They are proved once, for any property
    that the primitives of the harness keep, and then used twice: for the
    labels of the frame and for the files written. *)

Section Preserves.

Variable P : World -> Prop.

Lemma preserves_ret {A} (a : A) : preserves P (ret a).
Proof. intros w H. exact H. Qed.

Lemma preserves_lift {A} (o : outcome A) : preserves P (lift o).
Proof. intros w H. exact H. Qed.

Lemma preserves_bind {A B} (m : M A) (k : A -> M B) :
  preserves P m -> (forall a, preserves P (k a)) -> preserves P (bind m k).
Proof.
  intros Hm Hk w H. unfold bind. specialize (Hm w H).
  destruct (m w) as [[a|e] w1]; cbn [snd] in *; [now apply Hk | exact Hm].
Qed.

Lemma preserves_for_each {A} (body : A -> M unit) l :
  (forall x, In x l -> preserves P (body x)) -> preserves P (for_each body l).
Proof.
  induction l as [|x rest IH]; intros Hb; cbn [for_each].
  - apply preserves_ret.
  - apply preserves_bind; [apply Hb; now left|].
    intros _. apply IH. intros y Hy. apply Hb. now right.
Qed.

Lemma preserves_comprehension {A B} (f : A -> M B) l :
  (forall x, preserves P (f x)) -> preserves P (comprehension f l).
Proof.
  intros Hf. induction l as [|x rest IH]; cbn [comprehension].
  - apply preserves_ret.
  - apply preserves_bind; [apply Hf|]. intros y.
    apply preserves_bind; [exact IH|]. intros ys. apply preserves_ret.
Qed.

Hypothesis P_calls : forall n w, P w -> P (mk_world n (df w) (trace w)).

Lemma preserves_stmt f x : preserves P (call f x ;; ret tt).
Proof.
  apply preserves_bind; [|intros b; apply preserves_ret].
  intros w H. unfold call. cbn [snd]. now apply P_calls.
Qed.

Lemma preserves_timer clock : preserves P (Timeit.timer clock).
Proof. intros w H. exact H. Qed.

Lemma preserves_for_range number stmt :
  preserves P stmt -> preserves P (Timeit.for_range number stmt).
Proof.
  intros Hs. unfold Timeit.for_range.
  induction number as [|n IH] using N.peano_ind.
  - apply preserves_ret.
  - rewrite N.iter_succ. apply preserves_bind; [exact IH|]. intros _. exact Hs.
Qed.

Lemma preserves_timeit clock stmt number :
  preserves P stmt -> preserves P (Timeit.timeit clock stmt number).
Proof.
  intros Hs. unfold Timeit.timeit.
  apply preserves_bind; [apply preserves_timer|]. intros t0.
  apply preserves_bind; [now apply preserves_for_range|]. intros _.
  apply preserves_bind; [apply preserves_timer|]. intros t1.
  apply preserves_ret.
Qed.

Lemma preserves_repeat clock stmt number : forall repeat_,
  preserves P stmt -> preserves P (Timeit.repeat clock stmt repeat_ number).
Proof.
  intros repeat_ Hs. induction repeat_ as [|k IH]; cbn [Timeit.repeat].
  - apply preserves_ret.
  - apply preserves_bind; [now apply preserves_timeit|]. intros t.
    apply preserves_bind; [exact IH|]. intros r. apply preserves_ret.
Qed.

Hypothesis P_logs : forall w e,
  match e with SaveFig _ => False | _ => True end ->
  P w -> P (mk_world (ncalls w) (df w) (trace w ++ [e])).

Lemma preserves_print l : preserves P (print l).
Proof. intros w H. unfold print, emit. cbn [snd]. now apply P_logs. Qed.

Lemma preserves_assign r c v : preserves P (emit (Assign r c v)).
Proof. intros w H. unfold emit. cbn [snd]. now apply P_logs. Qed.

Section Rows.

Hypothesis P_row : forall w r lo hi vals res,
  In r Leap_Benchmark_II.row_headers ->
  loc_set_slice (df w) r lo hi vals = Ok res ->
  P w -> P (mk_world (ncalls w) (fst res) (trace w)).

Lemma preserves_loc_set_slice r lo hi vals :
  In r Leap_Benchmark_II.row_headers ->
  preserves P (df_loc_set_slice r lo hi vals).
Proof.
  intros Hr w H. unfold df_loc_set_slice.
  unfold bind at 1, get_df at 1. unfold bind at 1, lift at 1.
  destruct (loc_set_slice (df w) r lo hi vals) as [res|e] eqn:Hres;
    [|exact H].
  unfold bind at 1, put_df at 1.
  apply preserves_for_each.
  - intros cv _. apply preserves_assign.
  - now apply P_row with r lo hi vals.
Qed.

Lemma preserves_measure clock func data :
  preserves P (Leap_Benchmark_II.measure clock func data).
Proof.
  unfold Leap_Benchmark_II.measure.
  apply preserves_bind; [apply preserves_repeat, preserves_stmt|]. intros ts.
  apply preserves_bind; [apply preserves_lift|]. intros m. apply preserves_ret.
Qed.

Lemma preserves_row clock func title :
  In title Leap_Benchmark_II.row_headers ->
  preserves P (Leap_Benchmark_II.row clock (func, title)).
Proof.
  intros Ht. unfold Leap_Benchmark_II.row.
  apply preserves_bind.
  - apply preserves_comprehension. intros data. apply preserves_measure.
  - intros val. apply preserves_bind; [apply preserves_print|]. intros _.
    now apply preserves_loc_set_slice.
Qed.

Lemma preserves_timings_II clock fs :
  preserves P (Leap_Benchmark_II.timings clock fs).
Proof.
  unfold Leap_Benchmark_II.timings. apply preserves_for_each.
  intros [func title] Hin. apply preserves_row.
  now apply in_combine_r in Hin.
Qed.

End Rows.

Section Cells.

Hypothesis P_cell : forall w r c v,
  In r Leap_Benchmark_II.row_headers -> In c Leap_Benchmark_II.col_headers ->
  P w -> P (mk_world (ncalls w) (loc_set (df w) r c v) (trace w)).

Lemma preserves_loc_set r c v :
  In r Leap_Benchmark_II.row_headers -> In c Leap_Benchmark_II.col_headers ->
  preserves P (df_loc_set r c v).
Proof.
  intros Hr Hc w H. rewrite df_loc_set_run. cbn [snd].
  apply (P_logs (mk_world (ncalls w) (loc_set (df w) r c v) (trace w)));
    [exact I|].
  now apply P_cell.
Qed.

Lemma preserves_block clock setups descriptor y year :
  In descriptor Leap_Benchmark_II.row_headers ->
  In year Leap_Benchmark_II.col_headers ->
  preserves P (Leap_benchmarking.block clock setups descriptor y year).
Proof.
  intros Hd Hy. unfold Leap_benchmarking.block.
  apply preserves_bind; [apply preserves_lift|]. intros leap_year.
  apply preserves_bind; [apply preserves_timeit, preserves_stmt|]. intros t.
  apply preserves_bind; [apply preserves_print|]. intros _.
  now apply preserves_loc_set.
Qed.

Lemma preserves_body clock setups descriptor :
  In descriptor Leap_Benchmark_II.row_headers ->
  preserves P (Leap_benchmarking.body clock setups descriptor).
Proof.
  intros Hd. unfold Leap_benchmarking.body.
  repeat (apply preserves_bind;
          [apply preserves_block; [exact Hd | cbn; tauto] | intros _]).
  apply preserves_block; [exact Hd | cbn; tauto].
Qed.

Lemma preserves_timings_I clock setups :
  preserves P (Leap_benchmarking.timings clock setups).
Proof.
  unfold Leap_benchmarking.timings. apply preserves_for_each.
  intros descriptor Hin. now apply preserves_body.
Qed.

End Cells.

End Preserves.

Lemma framed_calls n w : framed w -> framed (mk_world n (df w) (trace w)).
Proof. intros H. exact H. Qed.

Lemma framed_logs w e :
  match e with SaveFig _ => False | _ => True end ->
  framed w -> framed (mk_world (ncalls w) (df w) (trace w ++ [e])).
Proof. intros _ H. exact H. Qed.

(** Storing to a row the frame has adds no row and no column. *)
Lemma framed_row w r lo hi vals res :
  In r Leap_Benchmark_II.row_headers ->
  loc_set_slice (df w) r lo hi vals = Ok res ->
  framed w -> framed (mk_world (ncalls w) (fst res) (trace w)).
Proof.
  intros Hr Hres [Hi Hc]. unfold framed. cbn [df].
  unfold loc_set_slice in Hres.
  destruct (slice_locs (columns (df w)) lo hi) as [js|e]; [|discriminate].
  cbn [obind] in Hres. unfold with_row in Hres.
  rewrite <- Hi in Hr. destruct (get_loc_in _ _ Hr) as [i Hloc].
  rewrite Hloc in Hres.
  destruct (match vals with
            | [] => _ | _ => _ end) as [vs|e]; [|discriminate].
  cbn [obind] in Hres. injection Hres as <-. now split.
Qed.

Lemma framed_cell w r c v :
  In r Leap_Benchmark_II.row_headers -> In c Leap_Benchmark_II.col_headers ->
  framed w -> framed (mk_world (ncalls w) (loc_set (df w) r c v) (trace w)).
Proof.
  intros Hr Hc [Hi Hcol]. unfold framed. cbn [df].
  rewrite <- Hi in Hr. rewrite <- Hcol in Hc.
  destruct (loc_set_frame (df w) r c v Hr Hc) as [-> ->]. now split.
Qed.

Lemma wrote_calls F n w : wrote F w -> wrote F (mk_world n (df w) (trace w)).
Proof. intros H. exact H. Qed.

Lemma wrote_logs F w e :
  match e with SaveFig _ => False | _ => True end ->
  wrote F w -> wrote F (mk_world (ncalls w) (df w) (trace w ++ [e])).
Proof.
  intros He H. unfold wrote in *. rewrite files_app, H.
  destruct e; cbn; [now rewrite app_nil_r | now rewrite app_nil_r
                   | destruct He].
Qed.

Section EveryRun.

Variable clock : N -> Q.

Lemma harness_II_framed fs :
  framed (snd (Leap_Benchmark_II.harness clock fs initial_world)).
Proof.
  rewrite harness_II_from_started.
  apply (preserves_timings_II framed framed_calls framed_logs framed_row).
  now split.
Qed.

Lemma harness_I_framed setups :
  framed (snd (Leap_benchmarking.harness clock setups initial_world)).
Proof.
  rewrite harness_I_from_started.
  apply (preserves_timings_I framed framed_calls framed_logs framed_cell).
  now split.
Qed.


Lemma harness_I_no_file setups :
  files (snd (Leap_benchmarking.harness clock setups initial_world)) = [].
Proof.
  rewrite harness_I_from_started.
  apply (preserves_timings_I (wrote []) (wrote_calls []) (wrote_logs [])).
  - intros w r c v _ _ H. exact H.
  - reflexivity.
Qed.

Lemma script_framed {A} (harness : M A) w :
  framed (snd (harness w)) -> framed (snd ((harness ;; presentation) w)).
Proof.
  intros H. unfold bind. destruct (harness w) as [[a|e] w1]; cbn [snd] in *.
  - rewrite presentation_run. exact H.
  - exact H.
Qed.

Lemma script_Ok_harness {A} (harness : M A) w w' :
  (harness ;; presentation) w = (Ok tt, w') ->
  exists a w1, harness w = (Ok a, w1) /\ w' = finished w1.
Proof.
  unfold bind. destruct (harness w) as [[a|e] w1]; [|discriminate].
  rewrite presentation_run. intros H. injection H as <-. now exists a, w1.
Qed.

(** The chart is written by the part of the scripts that follows the
    timing loop. *)
Lemma script_writes_chart :
  files (snd (Leap_Benchmark_II.main clock initial_world))
  = ["../leap_timeit_bar_plot-dark.svg"%string] /\
  files (snd (Leap_benchmarking.main clock initial_world))
  = ["../leap_timeit_bar_plot-dark.svg"%string].
Proof.
  rewrite main_II_run, main_I_run. cbn [snd]. unfold finished, files.
  cbn [trace]. rewrite !flat_map_app.
  change (flat_map _ (trace (measured_II clock Leap_Benchmark_II.functions)))
    with (files (measured_II clock Leap_Benchmark_II.functions)).
  change (flat_map _ (trace (measured_I clock)))
    with (files (measured_I clock)).
  unfold measured_II. rewrite steps_files.
  pose proof (harness_I_no_file Leap_benchmarking.setups) as H.
  rewrite (harness_I_ok clock _ _ setups_found setups_clean) in H.
  cbn [snd] in H. rewrite H. split; reflexivity.
Qed.

End EveryRun.

(** * Properties of the harness *)

(** ** What is recorded *)

Lemma pick_least : forall rest x,
  (Builtins.least x rest = x \/ In (Builtins.least x rest) rest) /\
  (Builtins.least x rest <= x)%Q /\
  Forall (Qle (Builtins.least x rest)) rest.
Proof.
  induction rest as [|y rest IH]; intros x.
  - split; [now left|]. split; [apply Qle_refl | constructor].
  - change (Builtins.least x (y :: rest))
      with (Builtins.least (if Builtins.Qltb y x then y else x) rest).
    unfold Builtins.Qltb.
    destruct (Qle_bool x y) eqn:Hxy; cbn [negb].
    + apply Qle_bool_iff in Hxy.
      destruct (IH x) as (Hin & Hle & Hall). repeat split.
      * destruct Hin as [->|Hin]; [now left | right; now right].
      * exact Hle.
      * constructor; [now apply Qle_trans with x | exact Hall].
    + assert (Hyx : (y <= x)%Q).
      { apply Qnot_lt_le. intros Hlt. apply Qlt_le_weak in Hlt.
        apply Qle_bool_iff in Hlt. congruence. }
      destruct (IH y) as (Hin & Hle & Hall). repeat split.
      * destruct Hin as [->|Hin]; right; [now left | now right].
      * now apply Qle_trans with y.
      * constructor; [exact Hle | exact Hall].
Qed.

(** [min] returns an element of its argument that no element is below. *)
Lemma least_spec x rest :
  In (Builtins.least x rest) (x :: rest) /\
  Forall (Qle (Builtins.least x rest)) (x :: rest).
Proof.
  destruct (pick_least rest x) as (Hin & Hle & Hall). split.
  - destruct Hin as [->|Hin]; [now left | now right].
  - now constructor.
Qed.

Lemma II_value_spec clock start :
  exists m,
    In m (batch_totals clock start Timeit.default_repeat
                       Timeit.default_number) /\
    Forall (Qle m)
      (batch_totals clock start Timeit.default_repeat
                    Timeit.default_number) /\
    II_value clock start = Builtins.round m 3.
Proof.
  unfold II_value. cbn [batch_totals Timeit.default_repeat].
  eexists. split; [apply least_spec|]. split; [apply least_spec|reflexivity].
Qed.

Lemma warming_call_short k :
  (call_duration warming_clock k <= 2 # 1000000)%Q.
Proof.
  unfold call_duration, warming_clock.
  destruct (N.leb_spec (k + 1) 1000000); destruct (N.leb_spec k 1000000);
    unfold Qle, Qminus, Qplus, Qopp; cbn [Qnum Qden]; lia.
Qed.

(** C3, as stated, fails for [Leap_Benchmark_II.py]: on a clock where the
    first million calls take two microseconds each and the later ones one
    microsecond, the value recorded for (if-statements, 1900) is one
    second; it is neither the shortest single call of that cell's five
    million calls nor their total time divided by their count. *)
Lemma recorded_value_counterexample :
  exists v,
    at_ (df (snd (Leap_Benchmark_II.main warming_clock initial_world)))
        "if-statements" "1900" = Some (Num v) /\
    (v == 1)%Q /\
    ~ (min_single_call warming_clock 0 per_cell v \/
       mean_per_call warming_clock 0 per_cell v).
Proof.
  exists (II_value warming_clock 0).
  assert (Hv : (II_value warming_clock 0 == 1)%Q) by (vm_compute; reflexivity).
  split; [|split; [exact Hv|]].
  - rewrite main_II_run. cbn [snd].
    apply (cell_II warming_clock Leap_Benchmark_II.functions 0 0);
      reflexivity.
  - intros [[(k & _ & Hk) _] | Hmean].
    + rewrite Hv in Hk. pose proof (warming_call_short k) as Hs.
      rewrite <- Hk in Hs. vm_compute in Hs. now apply Hs.
    + unfold mean_per_call in Hmean. rewrite Hv in Hmean.
      vm_compute in Hmean. discriminate.
Qed.

(** C3, amended: for every (candidate, input) pair the value recorded in
    the table is, in [Leap_Benchmark_II.py], the smallest of the five
    totals that [timeit.repeat] returns, each the time of one batch of a
    million calls, rounded to three decimals; and, in
    [Leap_benchmarking.py], the time of one batch of a million calls
    divided by a million. *)
Theorem recorded_value clock i j r c :
  nth_error Leap_Benchmark_II.row_headers i = Some r ->
  nth_error Leap_Benchmark_II.col_headers j = Some c ->
  (exists v m,
     at_ (df (snd (Leap_Benchmark_II.main clock initial_world))) r c
     = Some (Num v) /\
     In m (batch_totals clock (N.of_nat (4 * i + j) * per_cell)
                        Timeit.default_repeat Timeit.default_number) /\
     Forall (Qle m)
       (batch_totals clock (N.of_nat (4 * i + j) * per_cell)
                     Timeit.default_repeat Timeit.default_number) /\
     v = Builtins.round m 3) /\
  (exists v,
     at_ (df (snd (Leap_benchmarking.main clock initial_world))) r c
     = Some (Num v) /\
     v = ((clock (N.of_nat (4 * i + j) * Leap_benchmarking.loops
                  + Leap_benchmarking.loops)%N
           - clock (N.of_nat (4 * i + j) * Leap_benchmarking.loops)%N)
          / inject_Z (Z.of_N Leap_benchmarking.loops))%Q).
Proof.
  intros Hr Hc. split.
  - rewrite main_II_run. cbn [snd].
    destruct (II_value_spec clock (N.of_nat (4 * i + j) * per_cell))
      as (m & Hin & Hall & Hv).
    exists (II_value clock (N.of_nat (4 * i + j) * per_cell)), m.
    split; [|auto].
    apply (cell_II clock Leap_Benchmark_II.functions i j);
      [reflexivity | exact Hr | exact Hc].
  - rewrite main_I_run. cbn [snd]. eexists.
    split; [apply (cell_I clock i j); [exact Hr | exact Hc]|].
    reflexivity.
Qed.

Lemma recorded_value_witness :
  exists v,
    at_ (df (snd (Leap_benchmarking.main warming_clock initial_world)))
        "datetime-add" "2019" = Some (Num v) /\
    v = ((warming_clock (N.of_nat (4 * 2 + 2) * Leap_benchmarking.loops
                         + Leap_benchmarking.loops)%N
          - warming_clock (N.of_nat (4 * 2 + 2) * Leap_benchmarking.loops)%N)
         / inject_Z (Z.of_N Leap_benchmarking.loops))%Q.
Proof.
  exact (proj2 (recorded_value warming_clock 2 2 "datetime-add" "2019"
                  eq_refl eq_refl)).
Defined.

(** ** Completed and aborted runs *)

Section Runs.

Variable clock : N -> Q.

(** C4: after a run that completes, every cell of the four candidate rows
    and four input-year columns holds a measurement and was stored to
    exactly once.  The run is that of [Leap_Benchmark_II.py] with any list
    of at least four candidates, or that of [Leap_benchmarking.py] with any
    dictionary of setups. *)
Theorem every_cell_populated :
  (forall fs w',
     (4 <= List.length fs)%nat ->
     Leap_Benchmark_II.script clock fs initial_world = (Ok tt, w') ->
     populated_once w') /\
  (forall setups w',
     Leap_benchmarking.script clock setups initial_world = (Ok tt, w') ->
     populated_once w').
Proof.
  split.
  - intros fs w' Hlen Hrun.
    destruct (first_failure (timed fs) Leap_Benchmark_II.input_data)
      as [[[i j] e]|] eqn:Hf.
    + rewrite (script_II_raise clock fs i j e Hf) in Hrun. discriminate.
    + rewrite (script_II_ok clock fs Hf) in Hrun. injection Hrun as <-.
      now apply populated_II.
  - intros setups w' Hrun. unfold Leap_benchmarking.script in Hrun.
    destruct (script_Ok_harness _ _ _ Hrun) as (a & w1 & Hh & ->).
    rewrite harness_I_from_started in Hh.
    destruct (timings_I_inv clock setups Leap_benchmarking.row_headers started)
      as (fs & Hfs & Hnone).
    { unfold Leap_benchmarking.timings in Hh. now rewrite Hh. }
    rewrite <- harness_I_from_started in Hh.
    rewrite (harness_I_ok clock setups fs Hfs Hnone) in Hh.
    injection Hh as _ <-. apply populated_I.
Qed.

(** C5: if a candidate raises on some input, the script ends with the
    exception of the first raising call in the order of the loops; that
    call is the last one made, and no file is written. *)
Theorem candidate_exception_aborts :
  (forall fs f d e,
     In f (timed fs) -> In d Leap_Benchmark_II.input_data -> f d = Raise e ->
     exists i j e' f' d',
       first_failure (timed fs) Leap_Benchmark_II.input_data
       = Some (i, j, e') /\
       nth_error (timed fs) i = Some f' /\
       nth_error Leap_Benchmark_II.input_data j = Some d' /\
       f' d' = Raise e' /\
       Leap_Benchmark_II.script clock fs initial_world
       = (Raise e', aborted_II clock fs i j) /\
       ncalls (aborted_II clock fs i j)
       = (N.of_nat (4 * i + j) * per_cell + 1)%N /\
       files (aborted_II clock fs i j) = []) /\
  (forall setups fs f d e,
     Forall2 (fun r f => Leap_benchmarking.getitem setups r = Ok f)
             Leap_benchmarking.row_headers fs ->
     In f fs -> In d years -> f d = Raise e ->
     exists i j e' f' d',
       first_failure fs years = Some (i, j, e') /\
       nth_error fs i = Some f' /\
       nth_error years j = Some d' /\
       f' d' = Raise e' /\
       Leap_benchmarking.script clock setups initial_world
       = (Raise e', aborted_I clock i j) /\
       ncalls (aborted_I clock i j)
       = (N.of_nat (4 * i + j) * Leap_benchmarking.loops + 1)%N /\
       files (aborted_I clock i j) = []).
Proof.
  split.
  - intros fs f d e Hf Hd He.
    destruct (first_failure (timed fs) Leap_Benchmark_II.input_data)
      as [[[i j] e']|] eqn:Hff.
    + destruct (first_failure_some _ _ _ _ _ Hff)
        as (f' & d' & Hi & Hj & He' & _).
      exists i, j, e', f', d'. repeat split; try assumption.
      * now apply script_II_raise.
      * apply aborted_II_ncalls. apply nth_error_Some. congruence.
      * apply aborted_II_files.
    + pose proof (proj1 (first_failure_none _ _) Hff f d Hf Hd) as Hok.
      rewrite He in Hok. discriminate.
  - intros setups fs f d e Hs Hf Hd He.
    destruct (first_failure fs years) as [[[i j] e']|] eqn:Hff.
    + destruct (first_failure_some _ _ _ _ _ Hff)
        as (f' & d' & Hi & Hj & He' & _).
      exists i, j, e', f', d'. repeat split; try assumption.
      * now apply script_I_raise with fs.
      * apply aborted_I_ncalls.
        -- apply Forall2_length in Hs. cbn in Hs.
           rewrite Hs. apply nth_error_Some. congruence.
        -- change 4%nat with (List.length years).
           apply nth_error_Some. congruence.
      * pose proof (harness_I_no_file clock setups) as Hnf.
        rewrite (harness_I_raise clock setups fs i j e' Hs Hff) in Hnf.
        exact Hnf.
    + pose proof (proj1 (first_failure_none _ _) Hff f d Hf Hd) as Hok.
      rewrite He in Hok. discriminate.
Qed.

End Runs.

Lemma every_cell_populated_witness :
  populated_once
    (finished (measured_II warming_clock Leap_Benchmark_II.functions)) /\
  populated_once (finished (measured_I warming_clock)).
Proof.
  split.
  - apply (proj1 (every_cell_populated warming_clock)
             Leap_Benchmark_II.functions); [cbn; lia|].
    exact (script_II_ok warming_clock Leap_Benchmark_II.functions
             functions_clean).
  - apply (proj2 (every_cell_populated warming_clock)
             Leap_benchmarking.setups).
    exact (script_I_ok warming_clock Leap_benchmarking.setups
             (map snd Leap_benchmarking.setups) setups_found setups_clean).
Defined.

Lemma setups_with_broken_found :
  Forall2 (fun r f => Leap_benchmarking.getitem setups_with_broken r = Ok f)
          Leap_benchmarking.row_headers (map snd setups_with_broken).
Proof. repeat constructor. Qed.

Lemma candidate_exception_aborts_witness :
  (exists i j e' w',
     Leap_Benchmark_II.script warming_clock functions_with_broken
       initial_world = (Raise e', w') /\
     ncalls w' = (N.of_nat (4 * i + j) * per_cell + 1)%N /\
     files w' = []) /\
  (exists i j e' w',
     Leap_benchmarking.script warming_clock setups_with_broken initial_world
     = (Raise e', w') /\
     ncalls w' = (N.of_nat (4 * i + j) * Leap_benchmarking.loops + 1)%N /\
     files w' = []).
Proof.
  split.
  - destruct (proj1 (candidate_exception_aborts warming_clock)
                functions_with_broken broken 1900 ValueError)
      as (i & j & e' & f' & d' & _ & _ & _ & _ & Hrun & Hn & Hf).
    + right. left. reflexivity.
    + left. reflexivity.
    + reflexivity.
    + exists i, j, e', (aborted_II warming_clock functions_with_broken i j).
      auto.
  - destruct (proj2 (candidate_exception_aborts warming_clock)
                setups_with_broken (map snd setups_with_broken)
                broken 1900 ValueError setups_with_broken_found)
      as (i & j & e' & f' & d' & _ & _ & _ & _ & Hrun & Hn & Hf).
    + right. left. reflexivity.
    + left. reflexivity.
    + reflexivity.
    + exists i, j, e', (aborted_I warming_clock i j). auto.
Defined.

(** ** Two runs *)

(** C7: two runs with the same candidates, inputs and repetitions, whatever
    the clock reads in each, leave tables of the same shape with the same
    row and column labels in the same order. *)
Theorem same_shape_and_order clock1 clock2 :
  (forall fs,
     let d1 := df (snd (Leap_Benchmark_II.script clock1 fs initial_world)) in
     let d2 := df (snd (Leap_Benchmark_II.script clock2 fs initial_world)) in
     shape d1 = shape d2 /\ index d1 = index d2 /\ columns d1 = columns d2 /\
     index d1 = Leap_Benchmark_II.row_headers /\
     columns d1 = Leap_Benchmark_II.col_headers) /\
  (forall setups,
     let d1 :=
       df (snd (Leap_benchmarking.script clock1 setups initial_world)) in
     let d2 :=
       df (snd (Leap_benchmarking.script clock2 setups initial_world)) in
     shape d1 = shape d2 /\ index d1 = index d2 /\ columns d1 = columns d2 /\
     index d1 = Leap_benchmarking.row_headers /\
     columns d1 = Leap_benchmarking.col_headers).
Proof.
  split.
  - intros fs d1 d2.
    destruct (script_framed (Leap_Benchmark_II.harness clock1 fs)
                initial_world (harness_II_framed clock1 fs)) as [Hi1 Hc1].
    destruct (script_framed (Leap_Benchmark_II.harness clock2 fs)
                initial_world (harness_II_framed clock2 fs)) as [Hi2 Hc2].
    fold (Leap_Benchmark_II.script clock1 fs) in Hi1, Hc1.
    fold (Leap_Benchmark_II.script clock2 fs) in Hi2, Hc2.
    subst d1 d2. unfold shape. rewrite Hi1, Hi2, Hc1, Hc2. auto.
  - intros setups d1 d2.
    destruct (script_framed (Leap_benchmarking.harness clock1 setups)
                initial_world (harness_I_framed clock1 setups)) as [Hi1 Hc1].
    destruct (script_framed (Leap_benchmarking.harness clock2 setups)
                initial_world (harness_I_framed clock2 setups)) as [Hi2 Hc2].
    fold (Leap_benchmarking.script clock1 setups) in Hi1, Hc1.
    fold (Leap_benchmarking.script clock2 setups) in Hi2, Hc2.
    subst d1 d2. unfold shape. rewrite Hi1, Hi2, Hc1, Hc2. auto.
Qed.

(** The values in corresponding cells need not be the same: they follow
    the clock. *)
Lemma durations_may_differ :
  exists v1 v2,
    at_ (df (snd (Leap_benchmarking.main warming_clock initial_world)))
        "if-statements" "1900" = Some (Num v1) /\
    at_ (df (snd (Leap_benchmarking.main still_clock initial_world)))
        "if-statements" "1900" = Some (Num v2) /\
    ~ (v1 == v2)%Q.
Proof.
  exists (I_value warming_clock 0), (I_value still_clock 0).
  rewrite !main_I_run. cbn [snd].
  split; [apply (cell_I warming_clock 0 0); reflexivity|].
  split; [apply (cell_I still_clock 0 0); reflexivity|].
  vm_compute. discriminate.
Qed.

(** ** Effects of the timing loop *)



(** * Further properties of the harness *)

Section Completed.

Variable clock : N -> Q.

(** A run of either script that ends normally ends in the world the
    closed form gives. *)
Lemma script_II_inv fs w' :
  Leap_Benchmark_II.script clock fs initial_world = (Ok tt, w') ->
  w' = finished (measured_II clock fs).
Proof.
  intros Hrun.
  destruct (first_failure (timed fs) Leap_Benchmark_II.input_data)
    as [[[i j] e]|] eqn:Hf.
  - rewrite (script_II_raise clock fs i j e Hf) in Hrun. discriminate.
  - rewrite (script_II_ok clock fs Hf) in Hrun. now injection Hrun as <-.
Qed.

Lemma script_I_inv setups w' :
  Leap_benchmarking.script clock setups initial_world = (Ok tt, w') ->
  w' = finished (measured_I clock).
Proof.
  intros Hrun. unfold Leap_benchmarking.script in Hrun.
  destruct (script_Ok_harness _ _ _ Hrun) as (a & w1 & Hh & ->).
  rewrite harness_I_from_started in Hh.
  destruct (timings_I_inv clock setups Leap_benchmarking.row_headers started)
    as (fs & Hfs & Hnone).
  { unfold Leap_benchmarking.timings in Hh. now rewrite Hh. }
  rewrite <- harness_I_from_started in Hh.
  rewrite (harness_I_ok clock setups fs Hfs Hnone) in Hh.
  now injection Hh as _ <-.
Qed.

Lemma map_snd_combine {A B} : forall (l : list A) (l' : list B),
  map snd (combine l l') = firstn (List.length l) l'.
Proof.
  induction l as [|x l IH]; intros [|y l']; cbn; try reflexivity.
  now rewrite IH.
Qed.

(** The loop body of [Leap_Benchmark_II.py] uses the candidate only to time
    it: the world after the rows depends on their titles alone. *)
Lemma steps_titles : forall pairs w,
  fold_left (step clock) pairs w
  = fold_left (after_row clock) (map snd pairs) w.
Proof.
  induction pairs as [|ft rest IH]; intros w; [reflexivity|].
  cbn [fold_left map]. now rewrite IH.
Qed.

Lemma measured_II_titles fs :
  measured_II clock fs
  = fold_left (after_row clock)
      (firstn (List.length fs) Leap_Benchmark_II.row_headers) started.
Proof. unfold measured_II. now rewrite steps_titles, map_snd_combine. Qed.

Lemma ncalls_finished w : ncalls (finished w) = ncalls w.
Proof. reflexivity. Qed.

Lemma ncalls_measured_II fs :
  (4 <= List.length fs)%nat -> ncalls (measured_II clock fs) = 80000000%N.
Proof.
  intros H. unfold measured_II. rewrite steps_ncalls.
  rewrite length_combine, Nat.min_r by (cbn; lia).
  reflexivity.
Qed.

Lemma ncalls_measured_I : ncalls (measured_I clock) = 16000000%N.
Proof. unfold measured_I. rewrite steps_I_ncalls. reflexivity. Qed.

(** X1: a run that ends normally has called the candidates exactly
    80,000,000 times in [Leap_Benchmark_II.py] (16 cells, 5 batches of
    1,000,000 calls each) and exactly 16,000,000 times in
    [Leap_benchmarking.py] (16 cells, 1,000,000 calls each), whatever the
    candidates are. *)
Theorem completed_run_calls :
  (forall fs w',
     (4 <= List.length fs)%nat ->
     Leap_Benchmark_II.script clock fs initial_world = (Ok tt, w') ->
     ncalls w' = 80000000%N) /\
  (forall setups w',
     Leap_benchmarking.script clock setups initial_world = (Ok tt, w') ->
     ncalls w' = 16000000%N).
Proof.
  split.
  - intros fs w' Hlen Hrun. rewrite (script_II_inv fs w' Hrun).
    rewrite ncalls_finished. exact (ncalls_measured_II fs Hlen).
  - intros setups w' Hrun. rewrite (script_I_inv setups w' Hrun).
    rewrite ncalls_finished. exact ncalls_measured_I.
Qed.

(** X2: the harness never looks at what a candidate returns.  Two runs
    under the same clock that both end normally end in the same world
    (same table, same console lines), whatever the candidates answered;
    for [Leap_Benchmark_II.py] the two lists must have the same length. *)
Theorem answers_are_not_inspected :
  (forall fs1 fs2 w1 w2,
     List.length fs1 = List.length fs2 ->
     Leap_Benchmark_II.script clock fs1 initial_world = (Ok tt, w1) ->
     Leap_Benchmark_II.script clock fs2 initial_world = (Ok tt, w2) ->
     w1 = w2) /\
  (forall setups1 setups2 w1 w2,
     Leap_benchmarking.script clock setups1 initial_world = (Ok tt, w1) ->
     Leap_benchmarking.script clock setups2 initial_world = (Ok tt, w2) ->
     w1 = w2).
Proof.
  split.
  - intros fs1 fs2 w1 w2 Hlen H1 H2.
    rewrite (script_II_inv fs1 w1 H1), (script_II_inv fs2 w2 H2).
    now rewrite !measured_II_titles, Hlen.
  - intros setups1 setups2 w1 w2 H1 H2.
    now rewrite (script_I_inv setups1 w1 H1), (script_I_inv setups2 w2 H2).
Qed.

End Completed.

Lemma functions_all_false_clean :
  first_failure (timed functions_all_false) Leap_Benchmark_II.input_data
  = None.
Proof. reflexivity. Qed.

Lemma setups_all_false_found :
  Forall2 (fun r f => Leap_benchmarking.getitem setups_all_false r = Ok f)
          Leap_benchmarking.row_headers (map snd setups_all_false).
Proof. repeat constructor. Qed.

Lemma completed_run_calls_witness :
  ncalls (finished (measured_II warming_clock Leap_Benchmark_II.functions))
  = 80000000%N /\
  ncalls (finished (measured_I warming_clock)) = 16000000%N.
Proof.
  split.
  - apply (proj1 (completed_run_calls warming_clock)
             Leap_Benchmark_II.functions); [cbn; lia|].
    exact (script_II_ok warming_clock Leap_Benchmark_II.functions
             functions_clean).
  - apply (proj2 (completed_run_calls warming_clock)
             Leap_benchmarking.setups).
    exact (script_I_ok warming_clock Leap_benchmarking.setups
             (map snd Leap_benchmarking.setups) setups_found setups_clean).
Defined.

Lemma answers_are_not_inspected_witness :
  finished (measured_II warming_clock Leap_Benchmark_II.functions)
  = finished (measured_II warming_clock functions_all_false) /\
  finished (measured_I warming_clock) = finished (measured_I warming_clock).
Proof.
  split.
  - apply (proj1 (answers_are_not_inspected warming_clock)
             Leap_Benchmark_II.functions functions_all_false);
      [reflexivity | |].
    + exact (script_II_ok warming_clock Leap_Benchmark_II.functions
               functions_clean).
    + exact (script_II_ok warming_clock functions_all_false
               functions_all_false_clean).
  - apply (proj2 (answers_are_not_inspected warming_clock)
             Leap_benchmarking.setups setups_all_false).
    + exact (script_I_ok warming_clock Leap_benchmarking.setups
               (map snd Leap_benchmarking.setups) setups_found setups_clean).
    + exact (script_I_ok warming_clock setups_all_false
               (map snd setups_all_false) setups_all_false_found eq_refl).
Defined.

(** ** Runs that abort *)

Lemma getitem_missing d key :
  ~ In key (map fst d) -> Leap_benchmarking.getitem d key = Raise KeyError.
Proof.
  induction d as [|[k v] d IH]; intros H; [reflexivity|].
  cbn [Leap_benchmarking.getitem].
  destruct (String.eqb_spec key k) as [->|Hne].
  - exfalso. apply H. now left.
  - apply IH. intros Hin. apply H. now right.
Qed.

Lemma getitem_found d key f :
  Leap_benchmarking.getitem d key = Ok f -> In (key, f) d.
Proof.
  induction d as [|[k v] d IH]; intros H; [discriminate|].
  cbn [Leap_benchmarking.getitem] in H.
  destruct (String.eqb_spec key k) as [->|Hne].
  - injection H as ->. now left.
  - right. now apply IH.
Qed.

Section Aborted.

Variable clock : N -> Q.

Lemma timings_I_missing setups : forall rows1 fs r rows2 w e,
  Forall2 (fun r f => Leap_benchmarking.getitem setups r = Ok f) rows1 fs ->
  first_failure fs years = None ->
  Leap_benchmarking.getitem setups r = Raise e ->
  for_each (Leap_benchmarking.body clock setups) (rows1 ++ r :: rows2) w
  = (Raise e, fold_left (step_I clock) rows1 w).
Proof.
  intros rows1 fs r rows2 w e H. revert w.
  induction H as [|r1 f rows1 fs Hr Hrest IH]; intros w Hf He.
  - cbn [app for_each fold_left]. apply bind_raise.
    unfold Leap_benchmarking.body. apply bind_raise. now apply block_missing.
  - cbn [first_failure] in Hf.
    destruct (first_raise f years) as [[j e0]|] eqn:Hfr; [discriminate|].
    destruct (first_failure fs years) as [[[i j] e0]|] eqn:Hff;
      [discriminate|].
    cbn [app for_each fold_left].
    rewrite (bind_ok _ _ _ _ _ (body_ok clock setups r1 f w Hr Hfr)).
    now apply IH.
Qed.

(** X3: when [setups] has no entry for one of the row headers, the run of
    [Leap_benchmarking.py] ends with [KeyError] at that row: the rows
    before it are complete, no candidate is called for the row or after
    it, and no file is written. *)
Theorem missing_setup_aborts setups rows1 r rows2 fs :
  Leap_benchmarking.row_headers = rows1 ++ r :: rows2 ->
  Forall2 (fun r f => Leap_benchmarking.getitem setups r = Ok f) rows1 fs ->
  first_failure fs years = None ->
  ~ In r (map fst setups) ->
  exists w',
    Leap_benchmarking.script clock setups initial_world
    = (Raise KeyError, w') /\
    w' = fold_left (step_I clock) rows1 started /\
    ncalls w'
    = (N.of_nat (List.length rows1) * (4 * Leap_benchmarking.loops))%N /\
    files w' = [].
Proof.
  intros Hrows Hfs Hclean Hmiss.
  assert (Hh : Leap_benchmarking.harness clock setups initial_world
               = (Raise KeyError, fold_left (step_I clock) rows1 started)).
  { rewrite harness_I_from_started. unfold Leap_benchmarking.timings.
    rewrite Hrows.
    apply (timings_I_missing setups rows1 fs r rows2 started KeyError
             Hfs Hclean).
    now apply getitem_missing. }
  exists (fold_left (step_I clock) rows1 started).
  split; [|split; [reflexivity|split]].
  - unfold Leap_benchmarking.script. now apply bind_raise.
  - now rewrite steps_I_ncalls.
  - pose proof (harness_I_no_file clock setups) as Hnf.
    rewrite Hh in Hnf. exact Hnf.
Qed.

Lemma firstn_firstn_lt {A} (l : list A) i n :
  (i <= n)%nat -> firstn i (firstn n l) = firstn i l.
Proof. intros H. rewrite firstn_firstn. now rewrite Nat.min_l. Qed.

Lemma aborted_II_df fs i j :
  (i < List.length (timed fs))%nat ->
  df (aborted_II clock fs i j)
  = df (fold_left (after_row clock)
          (firstn i Leap_Benchmark_II.row_headers) started).
Proof.
  intros Hi. unfold aborted_II, bump. cbn [df].
  rewrite steps_titles. rewrite <- firstn_map, map_snd_combine.
  rewrite firstn_firstn_lt; [reflexivity|].
  rewrite timed_length, length_combine in Hi. lia.
Qed.

Lemma rows_done_II i a b r c :
  (i < 4)%nat ->
  nth_error Leap_Benchmark_II.row_headers a = Some r ->
  nth_error Leap_Benchmark_II.col_headers b = Some c ->
  at_ (df (fold_left (after_row clock)
             (firstn i Leap_Benchmark_II.row_headers) started)) r c
  = Some (if (a <? i)%nat
          then Num (II_value clock (N.of_nat (4 * a + b) * per_cell))
          else NaN).
Proof.
  intros Hi Hr Hc.
  destruct i as [|[|[|[|i]]]]; try lia;
    (destruct a as [|[|[|[|a]]]]; cbn in Hr; try (destruct a; discriminate);
     injection Hr as <-;
     (destruct b as [|[|[|[|b]]]]; cbn in Hc;
      try (destruct b; discriminate);
      injection Hc as <-; cbv -[II_value]; reflexivity)).
Qed.

Lemma rows_done_I i j a b r c :
  (i < 4)%nat -> (j < 4)%nat ->
  nth_error Leap_benchmarking.row_headers a = Some r ->
  nth_error Leap_benchmarking.col_headers b = Some c ->
  at_ (df (aborted_I clock i j)) r c
  = Some (if ((a <? i) || ((a =? i) && (b <? j)))%nat
          then Num (I_value clock
                      (N.of_nat (4 * a + b) * Leap_benchmarking.loops))
          else NaN).
Proof.
  intros Hi Hj Hr Hc.
  destruct i as [|[|[|[|i]]]]; try lia;
    (destruct j as [|[|[|[|j]]]]; try lia;
     (destruct a as [|[|[|[|a]]]]; cbn in Hr;
      try (destruct a; discriminate);
      injection Hr as <-;
      (destruct b as [|[|[|[|b]]]]; cbn in Hc;
       try (destruct b; discriminate);
       injection Hc as <-; cbv -[I_value]; reflexivity))).
Qed.

(** X4: the table a run leaves when a candidate raises.  In
    [Leap_Benchmark_II.py] a row is stored only once its four inputs are
    measured: the rows before the raising candidate's are filled, its own
    row and the later ones hold [np.nan] throughout.  In
    [Leap_benchmarking.py] cells are stored one by one: the raising
    candidate's row is filled up to the input on which it raises. *)
Theorem table_at_abort :
  (forall fs i j e a b r c,
     first_failure (timed fs) Leap_Benchmark_II.input_data = Some (i, j, e) ->
     nth_error Leap_Benchmark_II.row_headers a = Some r ->
     nth_error Leap_Benchmark_II.col_headers b = Some c ->
     at_ (df (snd (Leap_Benchmark_II.script clock fs initial_world))) r c
     = Some (if (a <? i)%nat
             then Num (II_value clock (N.of_nat (4 * a + b) * per_cell))
             else NaN)) /\
  (forall setups fs i j e a b r c,
     Forall2 (fun r f => Leap_benchmarking.getitem setups r = Ok f)
             Leap_benchmarking.row_headers fs ->
     first_failure fs years = Some (i, j, e) ->
     nth_error Leap_benchmarking.row_headers a = Some r ->
     nth_error Leap_benchmarking.col_headers b = Some c ->
     at_ (df (snd (Leap_benchmarking.script clock setups initial_world))) r c
     = Some (if ((a <? i) || ((a =? i) && (b <? j)))%nat
             then Num (I_value clock
                         (N.of_nat (4 * a + b) * Leap_benchmarking.loops))
             else NaN)).
Proof.
  split.
  - intros fs i j e a b r c Hf Hr Hc.
    rewrite (script_II_raise clock fs i j e Hf). cbn [snd].
    destruct (first_failure_some _ _ _ _ _ Hf) as (f' & d' & Hi & _).
    assert (Hlt : (i < List.length (timed fs))%nat).
    { apply nth_error_Some. congruence. }
    rewrite (aborted_II_df fs i j Hlt).
    apply rows_done_II; [|exact Hr|exact Hc].
    rewrite timed_length, length_combine in Hlt. cbn in Hlt. lia.
  - intros setups fs i j e a b r c Hs Hf Hr Hc.
    rewrite (script_I_raise clock setups fs i j e Hs Hf). cbn [snd].
    destruct (first_failure_some _ _ _ _ _ Hf)
      as (f' & d' & Hi & Hj & _).
    apply rows_done_I; [| |exact Hr|exact Hc].
    + apply Forall2_length in Hs. cbn in Hs.
      rewrite Hs. apply nth_error_Some. congruence.
    + change 4%nat with (List.length years). apply nth_error_Some. congruence.
Qed.

End Aborted.

Lemma missing_setup_aborts_witness :
  exists w',
    Leap_benchmarking.script warming_clock setups_without_datetime
                             initial_world
    = (Raise KeyError, w') /\ ncalls w' = 8000000%N /\ files w' = [].
Proof.
  destruct (missing_setup_aborts warming_clock setups_without_datetime
              ["if-statements"; "ternary"]%string "datetime-add"
              ["calendar-isleap"]%string
              [pure Leap_benchmarking.if_statements.leap_year;
               pure Leap_benchmarking.ternary.leap_year])
    as (w' & Hrun & _ & Hn & Hfiles).
  - reflexivity.
  - repeat constructor.
  - vm_compute. reflexivity.
  - cbn. intros [H|[H|[H|[]]]]; discriminate.
  - exists w'. split; [exact Hrun|]. split; [|exact Hfiles].
    rewrite Hn. reflexivity.
Defined.

Lemma functions_with_broken_fail :
  first_failure (timed functions_with_broken) Leap_Benchmark_II.input_data
  = Some (1%nat, 0%nat, ValueError).
Proof. vm_compute. reflexivity. Qed.

Lemma setups_with_broken_fail :
  first_failure (map snd setups_with_broken) years
  = Some (1%nat, 0%nat, ValueError).
Proof. vm_compute. reflexivity. Qed.

Lemma table_at_abort_witness :
  at_ (df (snd (Leap_Benchmark_II.script warming_clock functions_with_broken
                  initial_world))) "ternary" "1900" = Some NaN /\
  at_ (df (snd (Leap_benchmarking.script warming_clock setups_with_broken
                  initial_world))) "ternary" "1900" = Some NaN.
Proof.
  split.
  - exact (proj1 (table_at_abort warming_clock) functions_with_broken
             1%nat 0%nat ValueError 1%nat 0%nat "ternary"%string
             "1900"%string functions_with_broken_fail eq_refl eq_refl).
  - exact (proj2 (table_at_abort warming_clock) setups_with_broken
             (map snd setups_with_broken) 1%nat 0%nat ValueError
             1%nat 0%nat "ternary"%string "1900"%string
             setups_with_broken_found setups_with_broken_fail
             eq_refl eq_refl).
Defined.

(** ** The sign of the numbers in the table *)




Section Numbers.

Variable clock : N -> Q.





End Numbers.




(** * Further properties of the candidates *)

Section Cycle.

Import Leap_Benchmark_II.

Lemma mod_shift year :
  (year + 400) mod 4 = year mod 4 /\
  (year + 400) mod 100 = year mod 100 /\
  (year + 400) mod 400 = year mod 400.
Proof.
  repeat split; Z.to_euclidean_division_equations; lia.
Qed.

Lemma mod_opp year m :
  0 < m -> ((- year) mod m =? 0) = (year mod m =? 0).
Proof.
  intros Hm.
  destruct (Z.eqb_spec (year mod m) 0) as [E|E];
    destruct (Z.eqb_spec ((- year) mod m) 0) as [F|F]; try reflexivity;
    exfalso.
  - apply F. rewrite Z.mod_opp_l_z; [reflexivity | lia | exact E].
  - apply E. rewrite <- (Z.opp_involutive year).
    rewrite Z.mod_opp_l_z; [reflexivity | lia | exact F].
Qed.

(** X9: the three modulo candidates are defined on every integer, follow
    the 400-year cycle and do not depend on the sign of the year: the
    answer for [year + 400] and for [- year] is the answer for [year]; in
    particular 0 and the negative multiples of 400 are leap. *)
Theorem modulo_candidates_cycle :
  forall year,
    leap_if_statements (year + 400) = leap_if_statements year /\
    leap_if_statements (- year) = leap_if_statements year /\
    leap_ternary (year + 400) = leap_ternary year /\
    leap_ternary (- year) = leap_ternary year /\
    leap_calendar (year + 400) = leap_calendar year /\
    leap_calendar (- year) = leap_calendar year /\
    leap_if_statements (400 * year) = true.
Proof.
  intros year.
  assert (Hshift : leap_if_statements (year + 400) = leap_if_statements year).
  { unfold leap_if_statements.
    destruct (mod_shift year) as (-> & -> & ->). reflexivity. }
  assert (Hopp : leap_if_statements (- year) = leap_if_statements year).
  { unfold leap_if_statements. now rewrite !mod_opp by lia. }
  split; [exact Hshift|]. split; [exact Hopp|].
  rewrite !leap_ternary_eq.
  split; [exact Hshift|]. split; [exact Hopp|].
  split; [exact Hshift|]. split; [exact Hopp|].
  unfold leap_if_statements.
  assert (H4 : (400 * year) mod 4 = 0)
    by (Z.to_euclidean_division_equations; lia).
  assert (H400 : (400 * year) mod 400 = 0)
    by (Z.to_euclidean_division_equations; lia).
  rewrite H4, H400. cbn. now rewrite orb_true_r.
Qed.

(** X10: inside the years [datetime] accepts, the datetime candidate
    follows the 400-year cycle too; one cycle further up, past 9999, it
    raises instead. *)
Theorem datetime_candidate_cycle :
  forall year,
    1 <= year ->
    (year + 400 <= 9999 -> leap_datetime (year + 400) = leap_datetime year) /\
    (9999 < year + 400 -> year <= 9999 ->
     leap_datetime (year + 400) = Raise ValueError /\
     exists b, leap_datetime year = Ok b).
Proof.
  intros year H1. split.
  - intros H2. rewrite !leap_datetime_in_range by lia.
    f_equal. unfold leap_if_statements.
    destruct (mod_shift year) as (-> & -> & ->). reflexivity.
  - intros H2 H3. split.
    + rewrite leap_datetime_out_of_range by lia.
      assert (Hfit : Datetime.fits_c_int (year + 400) = true).
      { unfold Datetime.fits_c_int, Datetime.INT_MIN, Datetime.INT_MAX.
        apply andb_true_intro. split; apply Z.leb_le; lia. }
      now rewrite Hfit.
    + exists (leap_if_statements year). apply leap_datetime_in_range. lia.
Qed.

End Cycle.

Lemma datetime_candidate_cycle_witness :
  Leap_Benchmark_II.leap_datetime (1600 + 400)
  = Leap_Benchmark_II.leap_datetime 1600 /\
  Leap_Benchmark_II.leap_datetime (9600 + 400) = Raise ValueError.
Proof.
  split.
  - apply (proj1 (datetime_candidate_cycle 1600 ltac:(lia))). lia.
  - apply (proj2 (datetime_candidate_cycle 9600 ltac:(lia))); lia.
Defined.

(** * The chart code *)

Section ChartFacts.

Import Chart.

Lemma nth_error_set_nth {A} (b : A) : forall h a k,
  nth_error (set_nth a b h) k
  = option_map (fun v => if Nat.eqb k a then b else v) (nth_error h k).
Proof.
  induction h as [|x h IH]; intros a k.
  - destruct a, k; reflexivity.
  - destruct a as [|a], k as [|k]; cbn [set_nth nth_error option_map Nat.eqb];
      try reflexivity.
    + now destruct (nth_error h k).
    + apply IH.
Qed.

Lemma length_set_nth {A} (b : A) : forall h a,
  List.length (set_nth a b h) = List.length h.
Proof.
  induction h as [|x h IH]; intros [|a]; cbn; try reflexivity.
  now rewrite IH.
Qed.

Lemma nth_error_rev_seq n k :
  (k < n)%nat -> nth_error (rev (seq 0 n)) k = Some (n - 1 - k)%nat.
Proof.
  intros H.
  rewrite (nth_error_nth' _ O) by (rewrite length_rev, length_seq; lia).
  rewrite rev_nth by (rewrite length_seq; lia).
  rewrite length_seq, seq_nth by lia. f_equal. lia.
Qed.

(** Indexing the reversed references: a position from either end, or
    [IndexError]. *)
Lemma getitem_rev_seq n i :
  getitem (rev (seq 0 n)) i
  = if (0 <=? i) && (i <? Z.of_nat n) then Done (n - 1 - Z.to_nat i)%nat
    else if (- Z.of_nat n <=? i) && (i <? 0) then Done (Z.to_nat (- i - 1))
    else IndexError.
Proof.
  unfold getitem. rewrite length_rev, length_seq.
  destruct (Z.ltb_spec i 0) as [Hneg|Hpos].
  - replace ((0 <=? i) && (i <? Z.of_nat n)) with false
      by (symmetry; apply andb_false_iff; left; apply Z.leb_gt; lia).
    rewrite andb_true_r.
    destruct (Z.leb_spec (- Z.of_nat n) i) as [Hin|Hout].
    + replace ((0 <=? i + Z.of_nat n) && (i + Z.of_nat n <? Z.of_nat n))
        with true
        by (symmetry; apply andb_true_intro; split;
            [apply Z.leb_le | apply Z.ltb_lt]; lia).
      rewrite nth_error_rev_seq by lia. f_equal. lia.
    + replace (0 <=? i + Z.of_nat n) with false
        by (symmetry; apply Z.leb_gt; lia).
      reflexivity.
  - rewrite andb_false_r.
    destruct ((0 <=? i) && (i <? Z.of_nat n)) eqn:Hin; [|reflexivity].
    apply andb_true_iff in Hin as [_ Hlt]. apply Z.ltb_lt in Hlt.
    rewrite nth_error_rev_seq by lia. reflexivity.
Qed.

Lemma nth_error_hide_all : forall gridlines h k,
  nth_error (hide_all gridlines h) k
  = option_map (fun v => if existsb (Nat.eqb k) gridlines then false else v)
               (nth_error h k).
Proof.
  unfold hide_all.
  induction gridlines as [|g rest IH]; intros h k; cbn [fold_left existsb].
  - now destruct (nth_error h k).
  - rewrite IH. unfold set_visible. rewrite nth_error_set_nth.
    destruct (nth_error h k) as [v|]; [|reflexivity]. cbn [option_map].
    destruct (Nat.eqb k g); cbn [orb]; [|reflexivity].
    now destruct (existsb (Nat.eqb k) rest).
Qed.

Lemma length_hide_all : forall gridlines h,
  List.length (hide_all gridlines h) = List.length h.
Proof.
  unfold hide_all.
  induction gridlines as [|g rest IH]; intros h; cbn [fold_left];
    [reflexivity|].
  rewrite IH. apply length_set_nth.
Qed.

Lemma existsb_rev_seq n k :
  (k < n)%nat -> existsb (Nat.eqb k) (rev (seq 0 n)) = true.
Proof.
  intros H. apply existsb_exists. exists k. split; [|apply Nat.eqb_refl].
  apply in_rev. rewrite rev_involutive. apply in_seq. lia.
Qed.

Lemma gridlines_II_done (h : artists) :
  (6 <= List.length h)%nat ->
  exists h',
    gridlines_II h = Done h' /\
    List.length h' = List.length h /\
    forall k v,
      nth_error h k = Some v ->
      nth_error h' k
      = Some (if untouched_II (List.length h) k then v else false).
Proof.
  intros Hn. unfold gridlines_II, get_ygridlines.
    set (n := List.length h) in *.
    cbn [hide_numbered]. unfold set_visible_at.
    rewrite !getitem_rev_seq.
    replace ((0 <=? -1) && (-1 <? Z.of_nat n)) with false by reflexivity.
    replace ((- Z.of_nat n <=? -1) && (-1 <? 0)) with true
      by (symmetry; apply andb_true_intro; split;
          [apply Z.leb_le; lia | reflexivity]).
    replace ((0 <=? 0) && (0 <? Z.of_nat n)) with true
      by (symmetry; apply andb_true_intro; split;
          [reflexivity | apply Z.ltb_lt; lia]).
    replace ((0 <=? 2) && (2 <? Z.of_nat n)) with true
      by (symmetry; apply andb_true_intro; split;
          [reflexivity | apply Z.ltb_lt; lia]).
    replace ((0 <=? 3) && (3 <? Z.of_nat n)) with true
      by (symmetry; apply andb_true_intro; split;
          [reflexivity | apply Z.ltb_lt; lia]).
    replace ((0 <=? 4) && (4 <? Z.of_nat n)) with true
      by (symmetry; apply andb_true_intro; split;
          [reflexivity | apply Z.ltb_lt; lia]).
    replace ((0 <=? 5) && (5 <? Z.of_nat n)) with true
      by (symmetry; apply andb_true_intro; split;
          [reflexivity | apply Z.ltb_lt; lia]).
    cbn [and_then]. eexists. split; [reflexivity|]. split.
    - unfold set_visible. now rewrite !length_set_nth.
    - intros k v Hk. unfold set_visible. rewrite !nth_error_set_nth, Hk.
      cbn [option_map]. f_equal. unfold untouched_II.
      change (Z.to_nat (- -1 - 1)) with 0%nat.
      change (Z.to_nat 0) with 0%nat. change (Z.to_nat 2) with 2%nat.
      change (Z.to_nat 3) with 3%nat. change (Z.to_nat 4) with 4%nat.
      change (Z.to_nat 5) with 5%nat.
      replace (n - 1 - 0)%nat with (n - 1)%nat by lia.
      replace (n - 1 - 2)%nat with (n - 3)%nat by lia.
      replace (n - 1 - 3)%nat with (n - 4)%nat by lia.
      replace (n - 1 - 4)%nat with (n - 5)%nat by lia.
      replace (n - 1 - 5)%nat with (n - 6)%nat by lia.
      destruct (Nat.eqb k 0), (Nat.eqb k (n - 1)), (Nat.eqb k (n - 3)),
        (Nat.eqb k (n - 4)), (Nat.eqb k (n - 5)), (Nat.eqb k (n - 6));
        reflexivity.
Qed.

Lemma gridlines_II_short (h : artists) :
  (List.length h < 6)%nat -> gridlines_II h = IndexError.
Proof.
  intros Hlt.
  destruct h as [|a0 [|a1 [|a2 [|a3 [|a4 [|a5 h]]]]]];
    try reflexivity.
  cbn in Hlt. lia.
Qed.

Lemma gridlines_I_done (h : artists) :
  (3 <= List.length h)%nat ->
  exists h',
    gridlines_I h = Done h' /\
    List.length h' = List.length h /\
    forall k,
      (k < List.length h)%nat ->
      nth_error h' k = Some (shown_I (List.length h) k).
Proof.
  intros Hn. unfold gridlines_I, get_ygridlines.
    set (n := List.length h) in *.
    unfold set_visible_at. rewrite !getitem_rev_seq.
    replace ((0 <=? -3) && (-3 <? Z.of_nat n)) with false by reflexivity.
    replace ((- Z.of_nat n <=? -3) && (-3 <? 0)) with true
      by (symmetry; apply andb_true_intro; split;
          [apply Z.leb_le; lia | reflexivity]).
    replace ((0 <=? -2) && (-2 <? Z.of_nat n)) with false by reflexivity.
    replace ((- Z.of_nat n <=? -2) && (-2 <? 0)) with true
      by (symmetry; apply andb_true_intro; split;
          [apply Z.leb_le; lia | reflexivity]).
    replace ((0 <=? 1) && (1 <? Z.of_nat n)) with true
      by (symmetry; apply andb_true_intro; split;
          [reflexivity | apply Z.ltb_lt; lia]).
    cbn [and_then]. eexists. split; [reflexivity|]. split.
    - unfold set_visible. rewrite !length_set_nth. apply length_hide_all.
    - intros k Hk. unfold set_visible.
      rewrite !nth_error_set_nth, nth_error_hide_all.
      destruct (nth_error h k) as [v|] eqn:Hv.
      2:{ apply nth_error_None in Hv. fold n in Hv. lia. }
      cbn [option_map]. rewrite existsb_rev_seq by exact Hk.
      f_equal. unfold shown_I.
      change (Z.to_nat (- -3 - 1)) with 2%nat.
      change (Z.to_nat (- -2 - 1)) with 1%nat.
      change (Z.to_nat 1) with 1%nat.
      replace (n - 1 - 1)%nat with (n - 2)%nat by lia.
      destruct (Nat.eqb k 1), (Nat.eqb k 2), (Nat.eqb k (n - 2));
        reflexivity.
Qed.

Lemma gridlines_I_short (h : artists) :
  (List.length h < 3)%nat -> gridlines_I h = IndexError.
Proof.
  intros Hlt.
  destruct h as [|a0 [|a1 [|a2 h]]]; try reflexivity.
  cbn in Hlt. lia.
Qed.

(** X11: the grid-line code of [Leap_Benchmark_II.py] raises [IndexError]
    exactly when the axis has fewer than six grid lines.  Otherwise it
    hides the lowest grid line, the highest one and the third to sixth
    from the top, and leaves every other grid line as it was. *)
Theorem gridlines_II_spec (h : artists) :
  (gridlines_II h = IndexError <-> (List.length h < 6)%nat) /\
  ((6 <= List.length h)%nat ->
   exists h',
     gridlines_II h = Done h' /\
     List.length h' = List.length h /\
     forall k v,
       nth_error h k = Some v ->
       nth_error h' k
       = Some (if untouched_II (List.length h) k then v else false)).
Proof.
  split; [|apply gridlines_II_done]. split.
  - intros Herr.
    destruct (Nat.lt_ge_cases (List.length h) 6) as [Hlt|Hge]; [exact Hlt|].
    destruct (gridlines_II_done h Hge) as (h' & Hrun & _). congruence.
  - apply gridlines_II_short.
Qed.

Lemma gridlines_II_spec_witness :
  (6 <= List.length (repeat true 7))%nat /\
  exists h',
    gridlines_II (repeat true 7) = Done h' /\
    List.length h' = 7%nat.
Proof.
  split; [cbn; lia|].
  destruct (proj2 (gridlines_II_spec (repeat true 7))) as (h' & Hrun & Hlen & _);
    [cbn; lia|].
  exists h'. split; [exact Hrun | exact Hlen].
Defined.

(** X12: the grid-line code of [Leap_benchmarking.py] raises [IndexError]
    exactly when the axis has fewer than three grid lines.  Otherwise,
    whatever was visible before, the visible grid lines are the second and
    third from the bottom and the second from the top, and no other. *)
Theorem gridlines_I_spec (h : artists) :
  (gridlines_I h = IndexError <-> (List.length h < 3)%nat) /\
  ((3 <= List.length h)%nat ->
   exists h',
     gridlines_I h = Done h' /\
     List.length h' = List.length h /\
     forall k,
       (k < List.length h)%nat ->
       nth_error h' k = Some (shown_I (List.length h) k)).
Proof.
  split; [|apply gridlines_I_done]. split.
  - intros Herr.
    destruct (Nat.lt_ge_cases (List.length h) 3) as [Hlt|Hge]; [exact Hlt|].
    destruct (gridlines_I_done h Hge) as (h' & Hrun & _). congruence.
  - apply gridlines_I_short.
Qed.

Lemma gridlines_I_spec_witness :
  (3 <= List.length (repeat true 7))%nat /\
  exists h',
    gridlines_I (repeat true 7) = Done h' /\
    List.length h' = 7%nat.
Proof.
  split; [cbn; lia|].
  destruct (proj2 (gridlines_I_spec (repeat true 7))) as (h' & Hrun & Hlen & _);
    [cbn; lia|].
  exists h'. split; [exact Hrun | exact Hlen].
Defined.

(** The visible tick labels of a list of labels that continues. *)
Lemma seq_from a : forall n, seq a n = map (Nat.add a) (seq 0 n).
Proof.
  induction a as [|a IH]; intros n.
  - cbn. now rewrite map_id.
  - rewrite <- seq_shift, IH, map_map. reflexivity.
Qed.

Lemma get_yticklabels_app (l1 l2 : artists) :
  get_yticklabels (l1 ++ l2)
  = get_yticklabels l1
    ++ map (Nat.add (List.length l1)) (get_yticklabels l2).
Proof.
  unfold get_yticklabels.
  rewrite length_app, seq_app, filter_app. cbn [Nat.add]. f_equal.
  - apply filter_ext_in. intros k Hk. apply in_seq in Hk.
    apply app_nth1. lia.
  - rewrite (seq_from (List.length l1)), filter_map_swap. f_equal.
    apply filter_ext. intros k. apply app_nth2_plus.
Qed.

Lemma get_yticklabels_hidden n : get_yticklabels (repeat false n) = [].
Proof.
  unfold get_yticklabels. rewrite repeat_length.
  induction (seq 0 n) as [|k l IH]; [reflexivity|].
  cbn [filter]. now rewrite nth_repeat.
Qed.

Lemma get_yticklabels_first a (rest : artists) :
  exists refs,
    get_yticklabels (repeat false a ++ true :: rest) = a :: refs.
Proof.
  rewrite get_yticklabels_app, get_yticklabels_hidden, repeat_length.
  change (true :: rest) with ([true] ++ rest).
  rewrite get_yticklabels_app.
  change (get_yticklabels [true]) with [0%nat]. cbn [app map].
  rewrite Nat.add_0_r. eexists. reflexivity.
Qed.

Lemma get_yticklabels_last (l : artists) b :
  exists refs,
    get_yticklabels (l ++ true :: repeat false b)
    = refs ++ [List.length l].
Proof.
  rewrite get_yticklabels_app.
  change (true :: repeat false b) with ([true] ++ repeat false b).
  rewrite get_yticklabels_app, get_yticklabels_hidden.
  change (get_yticklabels [true]) with [0%nat]. cbn [app map].
  rewrite Nat.add_0_r. eexists. reflexivity.
Qed.

Lemma getitem_first {A} (x : A) l : getitem (x :: l) 0 = Done x.
Proof.
  unfold getitem. cbn [List.length].
  replace (0 <? Z.of_nat (S (List.length l))) with true
    by (symmetry; apply Z.ltb_lt; lia).
  reflexivity.
Qed.

Lemma getitem_last {A} (x : A) l : getitem (l ++ [x]) (-1) = Done x.
Proof.
  unfold getitem. rewrite length_app. cbn [List.length].
  change (-1 <? 0) with true. cbv iota.
  replace (-1 + Z.of_nat (List.length l + 1)) with (Z.of_nat (List.length l))
    by lia.
  replace (0 <=? Z.of_nat (List.length l)) with true
    by (symmetry; apply Z.leb_le; lia).
  replace (Z.of_nat (List.length l) <? Z.of_nat (List.length l + 1))
    with true by (symmetry; apply Z.ltb_lt; lia).
  cbn [andb]. rewrite Nat2Z.id, nth_error_app2 by lia.
  now rewrite Nat.sub_diag.
Qed.

Lemma getitem_empty {A} i : getitem (@nil A) i = IndexError.
Proof.
  unfold getitem. cbn [List.length]. change (Z.of_nat 0) with 0.
  destruct (Z.ltb_spec i 0) as [Hneg|Hpos].
  - rewrite Z.add_0_r.
    replace (0 <=? i) with false by (symmetry; apply Z.leb_gt; lia).
    reflexivity.
  - replace (i <? 0) with false by (symmetry; apply Z.ltb_ge; lia).
    now rewrite andb_false_r.
Qed.

Lemma set_nth_middle {A} (b x : A) l2 : forall l1,
  set_nth (List.length l1) b (l1 ++ x :: l2) = l1 ++ b :: l2.
Proof.
  induction l1 as [|y l1 IH]; cbn; [reflexivity|]. now rewrite IH.
Qed.

Lemma hide_first a (rest : artists) :
  set_nth a false (repeat false a ++ true :: rest)
  = repeat false a ++ false :: rest.
Proof.
  rewrite <- (repeat_length false a) at 1. apply set_nth_middle.
Qed.

(** No visible label: the first statement raises. *)
Lemma yticklabels_none n : yticklabels (repeat false n) = IndexError.
Proof.
  unfold yticklabels, set_visible_at.
  now rewrite get_yticklabels_hidden, getitem_empty.
Qed.

(** One visible label: the first statement hides it, the second raises. *)
Lemma yticklabels_one a b :
  yticklabels (repeat false a ++ true :: repeat false b) = IndexError.
Proof.
  unfold yticklabels, set_visible_at.
  destruct (get_yticklabels_first a (repeat false b)) as (refs & ->).
  rewrite getitem_first. cbn [and_then]. unfold set_visible.
  rewrite !hide_first.
  change (false :: repeat false b) with (repeat false (S b)).
  rewrite <- repeat_app, get_yticklabels_hidden, getitem_empty.
  reflexivity.
Qed.

(** Two visible labels or more: the first and the last of them are
    hidden. *)
Lemma yticklabels_done a mid b :
  yticklabels (repeat false a ++ true :: mid ++ true :: repeat false b)
  = Done (repeat false a ++ false :: mid ++ false :: repeat false b).
Proof.
  unfold yticklabels, set_visible_at.
  destruct (get_yticklabels_first a (mid ++ true :: repeat false b))
    as (refs & ->).
  rewrite getitem_first. cbn [and_then]. unfold set_visible.
  rewrite !hide_first.
  change (repeat false a ++ false :: mid ++ true :: repeat false b)
    with (repeat false a ++ (false :: mid) ++ true :: repeat false b).
  rewrite app_assoc.
  destruct (get_yticklabels_last (repeat false a ++ false :: mid) b)
    as (refs' & ->).
  rewrite getitem_last. cbn [and_then].
  rewrite set_nth_middle, <- app_assoc. reflexivity.
Qed.

(** A list of labels has none visible, one, or a first and a last one. *)
Lemma visible_shape (h : artists) :
  match count_occ Bool.bool_dec h true with
  | 0%nat => exists n, h = repeat false n
  | 1%nat => exists a b, h = repeat false a ++ true :: repeat false b
  | _ => exists a mid b,
           h = repeat false a ++ true :: mid ++ true :: repeat false b
  end.
Proof.
  induction h as [|[|] h IH].
  - exists 0%nat. reflexivity.
  - rewrite count_occ_cons_eq by reflexivity.
    destruct (count_occ Bool.bool_dec h true) as [|[|n]].
    + destruct IH as (n & ->). now exists 0%nat, n.
    + destruct IH as (a & b & ->). now exists 0%nat, (repeat false a), b.
    + destruct IH as (a & mid & b & ->).
      now exists 0%nat, (repeat false a ++ true :: mid), b;
        rewrite <- app_assoc.
  - rewrite count_occ_cons_neq by discriminate.
    destruct (count_occ Bool.bool_dec h true) as [|[|n]].
    + destruct IH as (n & ->). now exists (S n).
    + destruct IH as (a & b & ->). now exists (S a), b.
    + destruct IH as (a & mid & b & ->). now exists (S a), mid, b.
Qed.

(** X13: the tick-label code of both scripts raises [IndexError] exactly
    when fewer than two tick labels are visible: with none at the first
    statement, with one at the second, which asks the axis for its visible
    labels again.  Otherwise it hides the first and the last of the
    visible labels and leaves every other label as it was. *)
Theorem yticklabels_spec (h : artists) :
  (yticklabels h = IndexError
   <-> (count_occ Bool.bool_dec h true < 2)%nat) /\
  ((2 <= count_occ Bool.bool_dec h true)%nat ->
   exists a mid b,
     h = repeat false a ++ true :: mid ++ true :: repeat false b /\
     yticklabels h
     = Done (repeat false a ++ false :: mid ++ false :: repeat false b)).
Proof.
  pose proof (visible_shape h) as Hshape.
  destruct (count_occ Bool.bool_dec h true) as [|[|n]].
  - destruct Hshape as (n & ->). split; [|lia].
    split; [lia|]. intros _. apply yticklabels_none.
  - destruct Hshape as (a & b & ->). split; [|lia].
    split; [lia|]. intros _. apply yticklabels_one.
  - destruct Hshape as (a & mid & b & ->). split.
    + rewrite yticklabels_done. split; [discriminate|lia].
    + intros _. exists a, mid, b. split; [reflexivity|].
      apply yticklabels_done.
Qed.

Lemma yticklabels_spec_witness :
  (2 <= count_occ Bool.bool_dec [false; true; true; true] true)%nat /\
  (exists a mid b,
     [false; true; true; true]
     = repeat false a ++ true :: mid ++ true :: repeat false b /\
     yticklabels [false; true; true; true]
     = Done (repeat false a ++ false :: mid ++ false :: repeat false b)) /\
  yticklabels [false; true; true; true] = Done [false; false; true; false] /\
  yticklabels [true] = IndexError.
Proof.
  split; [vm_compute; lia|]. split.
  - apply (proj2 (yticklabels_spec [false; true; true; true])).
    vm_compute. lia.
  - split; reflexivity.
Defined.

End ChartFacts.

Section ChartComparison.

Import Chart.

Lemma untouched_is_shown n k :
  (6 <= n)%nat -> (k < n)%nat ->
  n = 9%nat -> untouched_II n k = shown_I n k.
Proof.
  intros _ Hk ->.
  do 9 (destruct k as [|k]; [reflexivity|]). lia.
Qed.

Lemma untouched_is_not_shown n :
  (6 <= n)%nat -> n <> 9%nat ->
  exists k, (k < n)%nat /\ untouched_II n k <> shown_I n k.
Proof.
  intros Hn Hne.
  destruct (Nat.lt_ge_cases n 9) as [Hlt|Hge].
  - destruct (Nat.eq_dec n 8) as [->|Hn8].
    + exists 2%nat. split; [lia | discriminate].
    + exists 1%nat. split; [lia|].
      assert (Hn67 : n = 6%nat \/ n = 7%nat) by lia.
      destruct Hn67 as [-> | ->]; discriminate.
  - exists 3%nat. split; [lia|].
    unfold untouched_II, shown_I.
    replace (Nat.eqb 3 (n - 1)) with false by (symmetry; apply Nat.eqb_neq; lia).
    replace (Nat.eqb 3 (n - 3)) with false by (symmetry; apply Nat.eqb_neq; lia).
    replace (Nat.eqb 3 (n - 4)) with false by (symmetry; apply Nat.eqb_neq; lia).
    replace (Nat.eqb 3 (n - 5)) with false by (symmetry; apply Nat.eqb_neq; lia).
    replace (Nat.eqb 3 (n - 6)) with false by (symmetry; apply Nat.eqb_neq; lia).
    replace (Nat.eqb 3 (n - 2)) with false by (symmetry; apply Nat.eqb_neq; lia).
    discriminate.
Qed.

(** X14: on an axis whose grid lines are all visible, the grid-line code
    of the two scripts ends the same way in two cases only: with fewer
    than three grid lines, where both raise [IndexError], and with exactly
    nine, where both leave the same three grid lines visible. *)
Theorem gridlines_agree (n : nat) :
  gridlines_II (repeat true n) = gridlines_I (repeat true n)
  <-> (n < 3)%nat \/ n = 9%nat.
Proof.
  pose proof (gridlines_II_short (repeat true n)) as HerrII.
  pose proof (gridlines_II_done (repeat true n)) as HokII.
  pose proof (gridlines_I_short (repeat true n)) as HerrI.
  pose proof (gridlines_I_done (repeat true n)) as HokI.
  rewrite repeat_length in *.
  destruct (Nat.lt_ge_cases n 3) as [Hlt3|Hge3].
  - split; [intros _; now left|]. intros _.
    rewrite HerrII by lia. now rewrite HerrI.
  - destruct (HokI Hge3) as (h1 & Hrun1 & Hlen1 & Hnth1).
    destruct (Nat.lt_ge_cases n 6) as [Hlt6|Hge6].
    + split; [|lia]. intros Heq.
      rewrite (HerrII Hlt6), Hrun1 in Heq. discriminate.
    + destruct (HokII Hge6) as (h2 & Hrun2 & Hlen2 & Hnth2).
      rewrite Hrun1, Hrun2. split.
      * intros Heq. injection Heq as Heq. right.
        destruct (Nat.eq_dec n 9) as [E|E]; [exact E|exfalso].
        destruct (untouched_is_not_shown n Hge6 E) as (k & Hk & Hdiff).
        apply Hdiff.
        specialize (Hnth1 k Hk).
        specialize (Hnth2 k true (nth_error_repeat true Hk)).
        rewrite Heq, Hnth1 in Hnth2. injection Hnth2 as Hnth2.
        rewrite Hnth2. now destruct (untouched_II n k).
      * intros [Hlt|E]; [lia|]. f_equal. apply nth_error_ext. intros k.
        destruct (Nat.lt_ge_cases k n) as [Hk|Hk].
        -- rewrite (Hnth1 k Hk).
           rewrite (Hnth2 k true (nth_error_repeat true Hk)).
           rewrite (untouched_is_shown n k Hge6 Hk E).
           now destruct (shown_I n k).
        -- rewrite (proj2 (nth_error_None h2 k)) by lia.
           now rewrite (proj2 (nth_error_None h1 k)) by lia.
Qed.

(** X15: the bar-label loop raises [IndexError] exactly when the chart has
    more than four bar containers.  Otherwise every container is labelled
    with four copies of the column header at its position: each bar of
    the [k]-th container carries the [k]-th year. *)
Theorem bar_labels_spec {C} (containers : list C) :
  (bar_labels containers = IndexError
   <-> (4 < List.length containers)%nat) /\
  ((List.length containers <= 4)%nat ->
   bar_labels containers
   = Done (map (fun kc =>
                  (snd kc,
                   repeat (nth (fst kc) Leap_Benchmark_II.col_headers
                               EmptyString) 4))
               (enumerate containers))).
Proof.
  assert (Hsmall : (List.length containers <= 4)%nat ->
                   bar_labels containers
                   = Done (map (fun kc =>
                                  (snd kc,
                                   repeat (nth (fst kc)
                                             Leap_Benchmark_II.col_headers
                                             EmptyString) 4))
                               (enumerate containers))).
  { intros Hlen.
    destruct containers as [|c0 [|c1 [|c2 [|c3 [|c4 rest]]]]];
      try reflexivity.
    cbn in Hlen. lia. }
  split; [|exact Hsmall]. split.
  - intros Herr.
    destruct (Nat.lt_ge_cases 4 (List.length containers)) as [Hlt|Hge];
      [exact Hlt|].
    rewrite (Hsmall Hge) in Herr. discriminate.
  - intros Hlen.
    destruct containers as [|c0 [|c1 [|c2 [|c3 [|c4 rest]]]]];
      try (cbn in Hlen; lia).
    reflexivity.
Qed.

Lemma bar_labels_spec_witness :
  bar_labels [tt; tt]
  = Done [(tt, ["1900"; "1900"; "1900"; "1900"]%string);
          (tt, ["2000"; "2000"; "2000"; "2000"]%string)].
Proof.
  destruct (bar_labels_spec [tt; tt]) as [_ Hdone].
  rewrite Hdone by (cbn; lia). vm_compute. reflexivity.
Defined.

End ChartComparison.

(** * [StaticColorAxisBBox] *)

Section StaticColor.

Import StaticColorAxisBBox.

Variable Patch : Type.
Variable color : Type.
Variable _set_edgecolor : Patch -> color -> Patch.
Variable Patch_set_linewidth : Patch -> Q -> Patch.

Lemma set_edgecolor_fixed (self : t Patch color) c :
  _original_edgecolor self <> None ->
  set_edgecolor _set_edgecolor self c = self.
Proof.
  unfold set_edgecolor.
  destruct (_original_edgecolor self); [reflexivity|congruence].
Qed.

Lemma set_edgecolor_fixes (self : t Patch color) c :
  _original_edgecolor (set_edgecolor _set_edgecolor self c) <> None.
Proof.
  unfold set_edgecolor.
  destruct (_original_edgecolor self) eqn:E; cbn;
    [rewrite E|]; discriminate.
Qed.

(** X16: [set_edgecolor] takes effect once.  Whatever the instance, a
    sequence of calls has the effect of its first call alone; on an
    instance that has [_original_edgecolor] even the first call changes
    nothing. *)
Theorem set_edgecolor_first_call_wins (self : t Patch color) c cs :
  fold_left (set_edgecolor _set_edgecolor) (c :: cs) self
  = set_edgecolor _set_edgecolor self c /\
  (_original_edgecolor self <> None ->
   fold_left (set_edgecolor _set_edgecolor) (c :: cs) self = self).
Proof.
  assert (Hfixed : forall cs (s : t Patch color),
             _original_edgecolor s <> None ->
             fold_left (set_edgecolor _set_edgecolor) cs s = s).
  { induction cs0 as [|c0 cs0 IH]; intros s Hs; [reflexivity|].
    cbn [fold_left]. rewrite (set_edgecolor_fixed s c0 Hs). now apply IH. }
  split.
  - cbn [fold_left]. apply Hfixed. apply set_edgecolor_fixes.
  - intros Hs. now apply Hfixed.
Qed.

(** X17: on an instance whose edge colour is set, any sequence of
    [set_edgecolor] and [set_linewidth] calls reaches the base class as
    nothing but [set_linewidth(1.5)], once for each [set_linewidth] call:
    the colours and the widths asked for have no effect. *)
Theorem setters_reach_the_base_as_fixed_width calls :
  forall self : t Patch color,
    _original_edgecolor self <> None ->
    fold_left (perform _set_edgecolor Patch_set_linewidth) calls self
    = mk (_original_edgecolor self)
         (Nat.iter (linewidth_calls calls)
                   (fun p => Patch_set_linewidth p (3 # 2))
                   (super self)).
Proof.
  induction calls as [|[c|w] calls IH]; intros self Hs.
  - now destruct self.
  - cbn [fold_left perform].
    rewrite (set_edgecolor_fixed self c Hs). now apply IH.
  - cbn [fold_left perform].
    rewrite IH by exact Hs.
    unfold linewidth_calls. cbn [filter List.length set_linewidth
                                 _original_edgecolor super Nat.iter].
    f_equal.
    apply (Nat.iter_swap _ Patch (fun p => Patch_set_linewidth p (3 # 2))).
Qed.

End StaticColor.

Lemma set_edgecolor_first_call_wins_witness :
  fold_left (StaticColorAxisBBox.set_edgecolor (fun _ c => c))
            [2; 3]%nat
            (StaticColorAxisBBox.mk (Some 1%nat) 1%nat)
  = StaticColorAxisBBox.mk (Some 1%nat) 1%nat.
Proof.
  apply (proj2 (set_edgecolor_first_call_wins
                  nat nat (fun _ c => c)
                  (StaticColorAxisBBox.mk (Some 1%nat) 1%nat) 2%nat [3%nat])).
  discriminate.
Defined.

Lemma setters_reach_the_base_as_fixed_width_witness :
  fold_left
    (StaticColorAxisBBox.perform (fun p _ => p) (fun p w => w :: p))
    [StaticColorAxisBBox.SetLinewidth 4;
     StaticColorAxisBBox.SetEdgecolor 7%nat;
     StaticColorAxisBBox.SetLinewidth (1 # 2)]
    (StaticColorAxisBBox.mk (Some 1%nat) [])
  = StaticColorAxisBBox.mk (Some 1%nat) [3 # 2; 3 # 2].
Proof.
  rewrite (setters_reach_the_base_as_fixed_width
             (list Q) nat (fun p _ => p) (fun p w => w :: p))
    by discriminate.
  reflexivity.
Defined.
